(** * Resilience and access-decision core of the paywall backend

  A shallow embedding of the circuit breaker, the payment handler and the
  webhook endpoint of [internal/payment/service.go] and of the rate
  limiter, usage accountant and decision engine of the [paywall] package,
  together with the parts of the cache adapter and of the subscription
  lookup they call. *)

From stdpp Require Import gmap strings list fin_maps.
From Stdlib Require Import ZArith Lia Ascii.

Open Scope Z_scope.

(** ** Go machine integers *)

Module GoInt.

Definition minInt64 : Z := -9223372036854775808.
Definition maxInt64 : Z := 9223372036854775807.

(** Two's complement wrap-around of [int] / [int64] arithmetic. *)
Definition wrap64 (z : Z) : Z := (z + 2 ^ 63) mod 2 ^ 64 - 2 ^ 63.

Definition in_int64 (z : Z) : bool := (minInt64 <=? z) && (z <=? maxInt64).

End GoInt.

(** ** Package [time]

  An instant is a number of nanoseconds on the one clock of the model;
  the clock shows the wall time of the server's zone, which keeps one
  offset (no daylight-saving change). *)

Module GoTime.
Import GoInt.

Definition Time := Z.
Definition Duration := Z.

Definition Nanosecond : Duration := 1.
Definition Millisecond : Duration := 1000000.
Definition Second : Duration := 1000000000.
Definition Minute : Duration := 60 * Second.
Definition Hour : Duration := 60 * Minute.
Definition Day : Duration := 24 * Hour.

(** [time.Time{}]: January 1 of year 1, counted from the Unix epoch. *)
Definition zeroTime : Time := -62135596800 * Second.

(** [t.Sub(u)] saturates at the ends of [Duration]. *)
Definition Sub (t u : Time) : Duration :=
  if maxInt64 <? t - u then maxInt64
  else if t - u <? minInt64 then minInt64
  else t - u.

(** [time.Since(t)] at the instant [now]. *)
Definition Since (now t : Time) : Duration := Sub now t.

(** [t.After(u)] *)
Definition After (t u : Time) : bool := u <? t.

(** [time.Date(now.Year(), now.Month(), now.Day(), 23, 59, 59, 0, now.Location())] *)
Definition endOfDay (now : Time) : Time := now - now mod Day + 86399 * Second.

End GoTime.

(** ** Fallible calls: a value, or the error of a [(value, err)] pair *)

Inductive Result (E A : Type) : Type :=
| Ok (a : A)
| Err (e : E).
Arguments Ok {E A} a.
Arguments Err {E A} e.

(** ** Package [strconv] *)

Module Strconv.
Import GoInt.

Definition isDigit (c : ascii) : bool :=
  let n := Z.of_N (N_of_ascii c) in (48 <=? n) && (n <=? 57).

Fixpoint parseDigits (s : string) (acc : Z) : option Z :=
  match s with
  | EmptyString => Some acc
  | String c s' =>
      if isDigit c then parseDigits s' (10 * acc + (Z.of_N (N_of_ascii c) - 48))
      else None
  end.

Definition parseUint (s : string) : option Z :=
  match s with
  | EmptyString => None
  | _ => parseDigits s 0
  end.

(** [strconv.Atoi]: an optional sign, then decimal digits only; [None]
    stands for a non-nil error (bad syntax, or a value outside [int]). *)
Definition Atoi (s : string) : option Z :=
  let v := match s with
           | EmptyString => None
           | String c rest =>
               if Ascii.eqb c "-" then Z.opp <$> parseUint rest
               else if Ascii.eqb c "+" then parseUint rest
               else parseUint s
           end in
  v ≫= fun n => if in_int64 n then Some n else None.

End Strconv.

(** ** Package [cache]: the Redis client

  The server behind the client is modelled by its documented behaviour on
  one key space: values are strings, a key may carry an expiry instant in
  milliseconds, and a key whose expiry has passed is absent to every
  command. The server never fails; the errors are those the commands give
  on a working server. *)

Module Cache.
Import GoInt GoTime Strconv.

Record Entry := {
  value : string;
  expireAt : option Z
}.

Inductive Error :=
| Nil            (* redis.Nil: the key does not exist *)
| ErrNotInteger  (* value is not an integer or out of range *)
| ErrOverflow.   (* increment or decrement would overflow *)

(** The server's clock, in milliseconds. *)
Definition mstime (now : Time) : Z := now / Millisecond.

Definition expired (now : Time) (e : Entry) : bool :=
  match expireAt e with
  | Some when => when <? mstime now
  | None => false
  end.

Definition find (now : Time) (key : string) (s : gmap string Entry) : option Entry :=
  match s !! key with
  | Some e => if expired now e then None else Some e
  | None => None
  end.

(** Decimal digits of a non-negative number, most significant first. *)
Definition digitChar (d : Z) : ascii := ascii_of_N (Z.to_N (48 + d)).

Fixpoint digitsOf (fuel : nat) (n : Z) (acc : string) : string :=
  match fuel with
  | O => acc
  | S f =>
      let acc' := String (digitChar (n mod 10)) acc in
      if n <? 10 then acc' else digitsOf f (n / 10) acc'
  end.

(** How the server prints a 64-bit integer (at most 19 digits). *)
Definition ll2string (z : Z) : string :=
  if z <? 0 then String "-" (digitsOf 20 (- z) EmptyString)
  else digitsOf 20 z EmptyString.

(** How the server reads one: only the exact decimal form of a 64-bit
    integer is accepted (no plus sign, no leading zero, no spaces). *)
Definition string2ll (s : string) : option Z :=
  match Atoi s with
  | Some n => if String.eqb (ll2string n) s then Some n else None
  | None => None
  end.

(** The client's rendering of a duration as a command argument. *)
Definition formatSec (dur : Duration) : Z :=
  if (0 <? dur) && (dur <? Second) then 1 else Z.quot dur Second.

Definition formatMs (dur : Duration) : Z :=
  if (0 <? dur) && (dur <? Millisecond) then 1 else Z.quot dur Millisecond.

Definition usePrecise (dur : Duration) : bool :=
  (dur <? Second) || negb (Z.rem dur Second =? 0).

Definition KeepTTL : Duration := -1.

Definition Get (now : Time) (key : string) (s : gmap string Entry) : Result Error string :=
  match find now key s with
  | Some e => Ok (value e)
  | None => Err Nil
  end.

(** [Set] of the client ([Set] is reserved in Rocq). *)
Definition Set_ (now : Time) (key value : string) (expiration : Duration)
    (s : gmap string Entry) : gmap string Entry * option Error :=
  let when :=
    if 0 <? expiration then
      if usePrecise expiration then Some (mstime now + formatMs expiration)
      else Some (mstime now + formatSec expiration * 1000)
    else if expiration =? KeepTTL then find now key s ≫= expireAt
    else None in
  (<[key := {| value := value; expireAt := when |}]> s, None).

Definition Incr (now : Time) (key : string) (s : gmap string Entry)
    : gmap string Entry * Result Error Z :=
  match find now key s with
  | None => (<[key := {| value := "1"; expireAt := None |}]> s, Ok 1)
  | Some e =>
      match string2ll (value e) with
      | None => (s, Err ErrNotInteger)
      | Some n =>
          if n <? maxInt64 then
            (<[key := {| value := ll2string (n + 1); expireAt := expireAt e |}]> s, Ok (n + 1))
          else (s, Err ErrOverflow)
      end
  end.

Definition Expire (now : Time) (key : string) (expiration : Duration)
    (s : gmap string Entry) : gmap string Entry * Result Error bool :=
  match find now key s with
  | None => (s, Ok false)
  | Some e =>
      let when := mstime now + formatSec expiration * 1000 in
      if when <=? mstime now then (delete key s, Ok true)
      else (<[key := {| value := value e; expireAt := Some when |}]> s, Ok true)
  end.

(** [TTL]: what is left of a key's life, in milliseconds; [None] for a key
    that is absent or has no expiry. *)
Definition TTL (now : Time) (key : string) (s : gmap string Entry) : option Z :=
  find now key s ≫= fun e => (fun when => when - mstime now) <$> expireAt e.

End Cache.

(** ** The store's type [uuid]

  The text the driver sends for a column of type [UUID] is read by the
  input function of that type and given back by its output function. The
  input takes sixteen bytes of two hexadecimal digits each, in either
  case, with a hyphen allowed after every second byte and braces allowed
  around the whole; the output is in lower case, with hyphens after the
  bytes 4, 6, 8 and 10. *)

Module Postgres.

Definition isxdigit (c : ascii) : bool :=
  let n := Z.of_nat (nat_of_ascii c) in
  ((48 <=? n) && (n <=? 57)) || ((65 <=? n) && (n <=? 70)) || ((97 <=? n) && (n <=? 102)).

Definition tolower (c : ascii) : ascii :=
  let n := nat_of_ascii c in
  if (65 <=? n)%nat && (n <=? 90)%nat then ascii_of_nat (n + 32) else c.

(** [string_to_uuid] with [k] of the sixteen bytes still to read: their
    digits in lower case, and the text after them. *)
Fixpoint string_to_uuid (k : nat) (src : string) : option (string * string) :=
  match k with
  | O => Some (EmptyString, src)
  | S k' =>
      match src with
      | String a (String b rest) =>
          if isxdigit a && isxdigit b then
            let i := (15 - k')%nat in
            let rest' :=
              match rest with
              | String c r =>
                  if Ascii.eqb c "-" && Nat.odd i && (i <? 15)%nat then r else rest
              | EmptyString => rest
              end in
            match string_to_uuid k' rest' with
            | Some (hex, tl) => Some (String (tolower a) (String (tolower b) hex), tl)
            | None => None
            end
          else None
      | _ => None
      end
  end.

Definition uuid_out (hex : string) : string :=
  String.substring 0 8 hex +:+ "-" +:+ String.substring 8 4 hex +:+ "-" +:+ String.substring 12 4 hex +:+ "-"
  +:+ String.substring 16 4 hex +:+ "-" +:+ String.substring 20 12 hex.

(** The uuid a text denotes, in the text the store gives back for it;
    [None] when the store rejects the text ("invalid input syntax for type
    uuid"). *)
Definition uuid_in (text : string) : option string :=
  let '(braces, src) :=
    match text with
    | String c r => if Ascii.eqb c "{" then (true, r) else (false, text)
    | EmptyString => (false, text)
    end in
  match string_to_uuid 16 src with
  | Some (hex, rest) =>
      if String.eqb rest (if braces then "}" else "") then Some (uuid_out hex) else None
  | None => None
  end.

End Postgres.

(** ** Package [db]: the relational store

  The two tables the modelled code touches. A connection that is not
  [available] fails every statement. The columns of type [UUID] hold the
  text the store gives back for a uuid; a column without [NOT NULL] may
  hold no value. *)

Module DB.
Import GoTime.

Inductive Error :=
| ErrNoRows     (* sql.ErrNoRows *)
| ErrConn       (* the statement could not be run *)
| ErrStatement  (* the store rejects the statement or a value of it *)
| ErrScan.      (* [Scan] met NULL for a Go value that cannot hold it *)

(** The Go struct [subscription.Subscription]; the [Amount], a float, is
    left out: no modelled code reads it. *)
Record Subscription := {
  ID : string;
  UserID : string;
  PlanID : string;
  Status : string;
  StartDate : Time;
  EndDate : Time;
  AutoRenew : bool;
  PaymentMethod : string;
  Currency : string;
  CreatedAt : Time;
  UpdatedAt : Time
}.

(** A row of [subscriptions], in the columns the statements of the code
    name ([amount] left out). *)
Record SubscriptionRow := {
  sub_id : string;
  sub_user_id : string;
  sub_plan_id : string;
  sub_status : string;
  sub_start_date : Time;
  sub_end_date : Time;
  sub_auto_renew : option bool;
  sub_payment_method : option string;
  sub_currency : option string;
  sub_created_at : option Time;
  sub_updated_at : option Time
}.

(** A row of [webhook_events]. *)
Record WebhookRow := {
  id : string;
  event_type : string;
  source : string;
  payload : string;
  processed : bool;
  processed_at : option Time;
  created_at : Time
}.

(** [subscription_columns] are the names of the columns of [subscriptions]
    in the store at hand. *)
Record Connection := {
  available : bool;
  subscription_columns : list string;
  subscriptions : list SubscriptionRow;
  webhook_events : list WebhookRow
}.

Definition withWebhookEvents (db : Connection) (rows : list WebhookRow) : Connection :=
  {| available := available db;
     subscription_columns := subscription_columns db;
     subscriptions := subscriptions db;
     webhook_events := rows |}.

(** The columns [migrations/001_initial_schema.sql] gives the table: the
    payment method is in [payment_method_id]. *)
Definition migration001 : list string :=
  ["id"; "user_id"; "plan_id"; "status"; "start_date"; "end_date"; "auto_renew";
   "payment_method_id"; "amount"; "currency"; "trial_end"; "created_at"; "updated_at"].

(** [rows.Scan] into the fields of the Go struct: a string, a bool or a
    [time.Time] cannot take NULL. *)
Definition scan (r : SubscriptionRow) : Result Error Subscription :=
  match sub_auto_renew r, sub_payment_method r, sub_currency r,
        sub_created_at r, sub_updated_at r with
  | Some autoRenew, Some method, Some currency, Some created, Some updated =>
      Ok {| ID := sub_id r; UserID := sub_user_id r; PlanID := sub_plan_id r;
            Status := sub_status r; StartDate := sub_start_date r;
            EndDate := sub_end_date r; AutoRenew := autoRenew;
            PaymentMethod := method; Currency := currency;
            CreatedAt := created; UpdatedAt := updated |}
  | _, _, _, _, _ => Err ErrScan
  end.

End DB.

(** ** Package [subscription]: the lookup the paywall calls *)

Module Subscription.
Import GoTime DB.

(** The columns the [SELECT] of the lookup names. *)
Definition selectColumns : list string :=
  ["id"; "user_id"; "plan_id"; "status"; "start_date"; "end_date"; "auto_renew";
   "payment_method"; "amount"; "currency"; "created_at"; "updated_at"].

Definition hasColumns (db : Connection) (names : list string) : bool :=
  forallb (fun name => existsb (String.eqb name) (subscription_columns db)) names.

(** [r] comes before [b] in [ORDER BY created_at DESC], where a row without
    a value sorts first. *)
Definition before (b r : SubscriptionRow) : bool :=
  match sub_created_at b, sub_created_at r with
  | None, _ => false
  | Some _, None => true
  | Some x, Some y => x <? y
  end.

(** [ORDER BY created_at DESC LIMIT 1]; among rows created at the same
    instant the first one met is kept. *)
Definition newest (rows : list SubscriptionRow) : option SubscriptionRow :=
  foldl (fun best r =>
           match best with
           | None => Some r
           | Some b => if before b r then Some r else Some b
           end) None rows.

(** [WHERE user_id = $1 AND status = 'active' AND end_date > NOW()], for
    the uuid [u] that [$1] denotes. *)
Definition selected (now : Time) (u : string) (r : SubscriptionRow) : bool :=
  String.eqb (sub_user_id r) u && String.eqb (sub_status r) "active" && (now <? sub_end_date r).

Definition GetActiveSubscriptionByUserID (now : Time) (db : Connection) (userID : string)
    : Result Error Subscription :=
  if available db then
    if hasColumns db selectColumns then
      match Postgres.uuid_in userID with
      | Some u =>
          match newest (List.filter (selected now u) (subscriptions db)) with
          | Some r => scan r
          | None => Err ErrNoRows
          end
      | None => Err ErrStatement
      end
    else Err ErrStatement
  else Err ErrConn.

End Subscription.

(** ** Package [payment]: the circuit breaker *)

Module Payment.
Import GoInt GoTime.

Inductive State := Closed | Open | HalfOpen.

#[export] Instance State_eq_dec : EqDecision State.
Proof. solve_decision. Defined.

Record CircuitBreakerConfig := {
  Enabled : bool;
  FailureThreshold : Z;
  RecoveryTimeout : Z;
  HalfOpenRequests : Z
}.

Record CircuitBreaker := {
  state : State;
  failureCount : Z;
  lastFailureTime : Time;
  config : CircuitBreakerConfig
}.

Definition NewCircuitBreaker (cfg : CircuitBreakerConfig) : CircuitBreaker :=
  {| state := Closed; failureCount := 0; lastFailureTime := zeroTime; config := cfg |}.

(** [time.Duration(cb.config.RecoveryTimeout) * time.Second] *)
Definition recoveryDuration (cfg : CircuitBreakerConfig) : Duration :=
  wrap64 (RecoveryTimeout cfg * Second).

(** The answer, and the breaker after the call. [State] is an [int] in the
    source, but only the three constants are ever stored, so the [default]
    branch of its [switch] has no counterpart here. *)
Definition CanExecute (now : Time) (cb : CircuitBreaker) : bool * CircuitBreaker :=
  match state cb with
  | Closed => (true, cb)
  | Open =>
      if recoveryDuration (config cb) <? Since now (lastFailureTime cb) then
        (true, {| state := HalfOpen; failureCount := failureCount cb;
                  lastFailureTime := lastFailureTime cb; config := config cb |})
      else (false, cb)
  | HalfOpen => (true, cb)
  end.

Definition RecordSuccess (cb : CircuitBreaker) : CircuitBreaker :=
  {| state := Closed; failureCount := 0;
     lastFailureTime := lastFailureTime cb; config := config cb |}.

Definition RecordFailure (now : Time) (cb : CircuitBreaker) : CircuitBreaker :=
  let n := wrap64 (failureCount cb + 1) in
  {| state := if FailureThreshold (config cb) <=? n then Open else state cb;
     failureCount := n;
     lastFailureTime := now;
     config := config cb |}.

(** A sequence of [RecordFailure] calls, one per instant of the list. *)
Definition recordFailures (ts : list Time) (cb : CircuitBreaker) : CircuitBreaker :=
  foldl (fun c t => RecordFailure t c) cb ts.

(** A sequence of [CanExecute] calls: the answers, and the breaker after. *)
Fixpoint canExecutes (ts : list Time) (cb : CircuitBreaker) : list bool * CircuitBreaker :=
  match ts with
  | [] => ([], cb)
  | t :: ts' =>
      let '(b, cb1) := CanExecute t cb in
      let '(bs, cb2) := canExecutes ts' cb1 in
      (b :: bs, cb2)
  end.

(** The calls a client of the breaker can make. *)
Inductive Call :=
| CallCanExecute (now : Time)
| CallRecordSuccess
| CallRecordFailure (now : Time).

Definition call (cb : CircuitBreaker) (c : Call) : CircuitBreaker :=
  match c with
  | CallCanExecute now => snd (CanExecute now cb)
  | CallRecordSuccess => RecordSuccess cb
  | CallRecordFailure now => RecordFailure now cb
  end.

Definition calls (cs : list Call) (cb : CircuitBreaker) : CircuitBreaker :=
  foldl call cb cs.

(** The defaults of [setDefaults]: threshold 5, recovery after 60 seconds. *)
Definition defaultConfig : CircuitBreakerConfig :=
  {| Enabled := true; FailureThreshold := 5; RecoveryTimeout := 60; HalfOpenRequests := 3 |}.

(** A breaker tripped by five failures, the last one five seconds in. *)
Definition tripped : CircuitBreaker :=
  recordFailures [1 * Second; 2 * Second; 3 * Second; 4 * Second; 5 * Second]
    (NewCircuitBreaker defaultConfig).

(** What every breaker of configuration [cfg] satisfies after at most [k]
    calls: the counter has not wrapped, and an open or half-open breaker
    has counted at least the threshold. *)
Definition breaker_inv (cfg : CircuitBreakerConfig) (k : Z) (cb : CircuitBreaker) : Prop :=
  config cb = cfg /\
  0 <= failureCount cb <= k /\
  (state cb = Open \/ state cb = HalfOpen -> FailureThreshold cfg <= failureCount cb).

(** Five failures, a refused call, and a trial call let through after the
    recovery time. *)
Definition trialFails : list Call :=
  [CallRecordFailure (1 * Second); CallRecordFailure (2 * Second);
   CallRecordFailure (3 * Second); CallRecordFailure (4 * Second);
   CallRecordFailure (5 * Second); CallCanExecute (6 * Second);
   CallCanExecute (66 * Second)].


(** *** Webhook events *)

(** [WebhookEvent]; [Data], an arbitrary JSON document, is kept as text. *)
Record WebhookEvent := {
  ID : string;
  Type_ : string;
  Data : string;
  Created : Z;
  Processed : bool
}.

(** The three reactions only write a log line. *)
Definition handlePaymentSuccess (event : WebhookEvent) : list string :=
  ["Processing payment success webhook: " +:+ ID event].

Definition handlePaymentFailure (event : WebhookEvent) : list string :=
  ["Processing payment failure webhook: " +:+ ID event].

Definition handleInvoicePayment (event : WebhookEvent) : list string :=
  ["Processing invoice payment webhook: " +:+ ID event].

(** [UPDATE webhook_events SET processed = true, processed_at = NOW()
    WHERE id = $1] on one row, for the uuid [u] that [$1] denotes. *)
Definition markRow (now : Time) (u : string) (r : DB.WebhookRow) : DB.WebhookRow :=
  if String.eqb (DB.id r) u then
    {| DB.id := DB.id r; DB.event_type := DB.event_type r; DB.source := DB.source r;
       DB.payload := DB.payload r; DB.processed := true; DB.processed_at := Some now;
       DB.created_at := DB.created_at r |}
  else r.

Definition markWebhookProcessed (now : Time) (db : DB.Connection) (eventID : string)
    : DB.Connection * option DB.Error :=
  if DB.available db then
    match Postgres.uuid_in eventID with
    | Some u =>
        (DB.withWebhookEvents db (map (markRow now u) (DB.webhook_events db)), None)
    | None => (db, Some DB.ErrStatement)
    end
  else (db, Some DB.ErrConn).

(** The detached handler: the store after it, and the log lines written.
    The error of [markWebhookProcessed] is dropped, as in the source. *)
Definition processWebhookEvent (now : Time) (db : DB.Connection) (event : WebhookEvent)
    : DB.Connection * list string :=
  let logs :=
    if String.eqb (Type_ event) "payment_intent.succeeded" then handlePaymentSuccess event
    else if String.eqb (Type_ event) "payment_intent.payment_failed" then handlePaymentFailure event
    else if String.eqb (Type_ event) "invoice.payment_succeeded" then handleInvoicePayment event
    else ["Unhandled webhook event type: " +:+ Type_ event] in
  (fst (markWebhookProcessed now db (ID event)), logs).

Definition recognized (eventType : string) : Prop :=
  eventType = "payment_intent.succeeded" \/
  eventType = "payment_intent.payment_failed" \/
  eventType = "invoice.payment_succeeded".

(** A store holding one delivered event that no reaction handles. *)
(** A stored event, and a delivery that spells its id in upper case. *)
Definition sampleRow : DB.WebhookRow :=
  {| DB.id := "0b5cbd1e-7f3a-4c2d-9e1f-6a8b7c9d0e1f"; DB.event_type := "customer.created";
     DB.source := "stripe"; DB.payload := "{}"; DB.processed := false;
     DB.processed_at := None; DB.created_at := 1 * Second |}.

Definition sampleStore : DB.Connection :=
  {| DB.available := true; DB.subscription_columns := DB.migration001;
     DB.subscriptions := []; DB.webhook_events := [sampleRow] |}.

Definition sampleEvent : WebhookEvent :=
  {| ID := "0B5CBD1E-7F3A-4C2D-9E1F-6A8B7C9D0E1F"; Type_ := "customer.created";
     Data := "{}"; Created := 1; Processed := false |}.

End Payment.

(** ** Package [paywall]: rate limiter, usage accountant, decision engine

    A handler runs at one instant [now] of the clock: every clock reading
    and every store command of one call happens at that instant. Log lines
    and metrics other than the label of [CheckAccess] are not part of the
    state. *)

Module Paywall.
Import GoInt GoTime Strconv.

Record Service := {
  cache : gmap string Cache.Entry;
  subscriptionSvc : DB.Connection
}.

Record PaywallCheckRequest := {
  CheckUserID : string;
  CheckContentID : string;
  CheckPlanID : string
}.

Record PaywallCheckResponse := {
  HasAccess : bool;
  CheckReason : string;
  CheckExpiresAt : Time
}.

Record PaywallEnforceRequest := {
  UserID : string;
  ContentID : string;
  Action : string
}.

Record UsageInfo := {
  Current : Z;
  Limit : Z;
  Remaining : Z
}.

Record PaywallEnforceResponse := {
  Allowed : bool;
  Reason : string;
  ExpiresAt : Time;
  Usage : UsageInfo
}.

(** What [c.JSON(status, body)] writes. *)
Inductive Body :=
| ErrorBody (error : string)               (* gin.H{"error": ...} *)
| DeniedBody (error reason : string)       (* gin.H{"error": ..., "reason": ...} *)
| CheckBody (r : PaywallCheckResponse)
| EnforceBody (r : PaywallEnforceResponse).

Record Response := {
  status : Z;
  body : Body
}.

Definition StatusOK : Z := 200.
Definition StatusBadRequest : Z := 400.
Definition StatusForbidden : Z := 403.
Definition StatusTooManyRequests : Z := 429.
Definition StatusInternalServerError : Z := 500.

Definition rateLimitKey (userID action : string) : string :=
  "rate_limit:" +:+ userID +:+ ":" +:+ action.

Definition usageKey (userID action : string) : string :=
  "usage:" +:+ userID +:+ ":" +:+ action.

Definition checkSubscriptionAccess (now : Time) (s : Service) (userID planID : string)
    : bool * string * Time * option DB.Error :=
  match Subscription.GetActiveSubscriptionByUserID now (subscriptionSvc s) userID with
  | Err _ => (false, "No active subscription found", zeroTime, None)
  | Ok sub =>
      if negb (String.eqb (DB.Status sub) "active") then
        (false, "Subscription is not active", zeroTime, None)
      else if After now (DB.EndDate sub) then
        (false, "Subscription has expired", zeroTime, None)
      else if negb (String.eqb planID "") && negb (String.eqb (DB.PlanID sub) planID) then
        (false, "Plan mismatch", zeroTime, None)
      else (true, "Valid subscription", DB.EndDate sub, None)
  end.

Definition checkRateLimit (now : Time) (c : gmap string Cache.Entry) (userID action : string)
    : gmap string Cache.Entry * bool :=
  let key := rateLimitKey userID action in
  match Cache.Get now key c with
  | Err _ => (fst (Cache.Set_ now key "1" Minute c), true)
  | Ok current =>
      match Atoi current with
      | None => (fst (Cache.Set_ now key "1" Minute c), true)
      | Some count =>
          if 10 <=? count then (c, false)
          else (fst (Cache.Incr now key c), true)
      end
  end.

Definition checkUsageLimits (now : Time) (c : gmap string Cache.Entry) (userID action : string)
    : UsageInfo * option Cache.Error :=
  let key := usageKey userID action in
  match Cache.Get now key c with
  | Err _ => ({| Current := 0; Limit := 100; Remaining := 100 |}, None)
  | Ok current =>
      match Atoi current with
      | None => ({| Current := 0; Limit := 100; Remaining := 100 |}, None)
      | Some count =>
          let limit := 100 in
          let remaining := wrap64 (limit - count) in
          let remaining := if remaining <? 0 then 0 else remaining in
          ({| Current := count; Limit := limit; Remaining := remaining |}, None)
      end
  end.

Definition incrementUsage (now : Time) (c : gmap string Cache.Entry) (userID action : string)
    : gmap string Cache.Entry * option Cache.Error :=
  let key := usageKey userID action in
  match Cache.Incr now key c with
  | (c1, Err e) => (c1, Some e)
  | (c1, Ok _) =>
      let ttl := Sub (endOfDay now) now in
      match Cache.Expire now key ttl c1 with
      | (c2, Err e) => (c2, Some e)
      | (c2, Ok _) => (c2, None)
      end
  end.

(** [bound] is what [ShouldBindJSON] made of the request body: the
    request, or the text of the binding error. *)
Definition EnforcePaywall (now : Time) (s : Service) (bound : Result string PaywallEnforceRequest)
    : Service * Response :=
  match bound with
  | Err msg => (s, {| status := StatusBadRequest; body := ErrorBody msg |})
  | Ok req =>
      let '(c1, ok) := checkRateLimit now (cache s) (UserID req) (Action req) in
      let s1 := {| cache := c1; subscriptionSvc := subscriptionSvc s |} in
      if negb ok then
        (s1, {| status := StatusTooManyRequests; body := ErrorBody "Rate limit exceeded" |})
      else
        let '(hasAccess, reason, expiresAt, err) := checkSubscriptionAccess now s1 (UserID req) "" in
        match err with
        | Some _ =>
            (s1, {| status := StatusInternalServerError; body := ErrorBody "Internal server error" |})
        | None =>
            if negb hasAccess then
              (s1, {| status := StatusForbidden; body := DeniedBody "Access denied" reason |})
            else
              match checkUsageLimits now c1 (UserID req) (Action req) with
              | (_, Some _) =>
                  (s1, {| status := StatusInternalServerError;
                          body := ErrorBody "Internal server error" |})
              | (usage, None) =>
                  let c2 := fst (incrementUsage now c1 (UserID req) (Action req)) in
                  ({| cache := c2; subscriptionSvc := subscriptionSvc s |},
                   {| status := StatusOK;
                      body := EnforceBody {| Allowed := true; Reason := "";
                                             ExpiresAt := expiresAt; Usage := usage |} |})
              end
        end
  end.

(** [EnforcePaywall] called once per instant of [ts] with the same request. *)
Fixpoint enforceAll (ts : list Time) (s : Service) (req : PaywallEnforceRequest)
    : Service * list Response :=
  match ts with
  | [] => (s, [])
  | t :: ts' =>
      let '(s1, r) := EnforcePaywall t s (Ok req) in
      let '(s2, rs) := enforceAll ts' s1 req in
      (s2, r :: rs)
  end.

(** [checkRateLimit] called once per instant of [ts] for the same pair. *)
Fixpoint rateLimitAll (ts : list Time) (c : gmap string Cache.Entry) (userID action : string)
    : gmap string Cache.Entry * list bool :=
  match ts with
  | [] => (c, [])
  | t :: ts' =>
      let '(c1, b) := checkRateLimit t c userID action in
      let '(c2, bs) := rateLimitAll ts' c1 userID action in
      (c2, b :: bs)
  end.

(** [incrementUsage] called once per instant of [ts] for the same pair. *)
Definition incrementAll (ts : list Time) (c : gmap string Cache.Entry) (userID action : string)
    : gmap string Cache.Entry :=
  foldl (fun c t => fst (incrementUsage t c userID action)) c ts.

Section CheckAccess.

(** [encoding/json] on [PaywallCheckResponse]; [None] is an error. *)
Variable json_Marshal : PaywallCheckResponse -> option string.
Variable json_Unmarshal : string -> option PaywallCheckResponse.

Definition accessKey (req : PaywallCheckRequest) : string :=
  "paywall:access:" +:+ CheckUserID req +:+ ":" +:+ CheckContentID req +:+ ":" +:+ CheckPlanID req.

Definition getCachedAccess (now : Time) (c : gmap string Cache.Entry) (key : string)
    : option PaywallCheckResponse :=
  match Cache.Get now key c with
  | Err _ => None
  | Ok data => json_Unmarshal data
  end.

Definition cacheAccessResult (now : Time) (c : gmap string Cache.Entry) (key : string)
    (result : PaywallCheckResponse) : gmap string Cache.Entry :=
  match json_Marshal result with
  | None => c
  | Some data => fst (Cache.Set_ now key data (5 * Minute) c)
  end.

(** The service after the call, the response, and the label given to
    [telemetry.RecordPaywallCheck]. *)
Definition CheckAccess (now : Time) (s : Service) (bound : Result string PaywallCheckRequest)
    : Service * Response * string :=
  match bound with
  | Err msg => (s, {| status := StatusBadRequest; body := ErrorBody msg |}, "validation_error")
  | Ok req =>
      let cacheKey := accessKey req in
      match getCachedAccess now (cache s) cacheKey with
      | Some cached => (s, {| status := StatusOK; body := CheckBody cached |}, "cache_hit")
      | None =>
          let '(hasAccess, reason, expiresAt, err) :=
            checkSubscriptionAccess now s (CheckUserID req) (CheckPlanID req) in
          match err with
          | Some _ =>
              (s, {| status := StatusInternalServerError;
                     body := ErrorBody "Internal server error" |}, "error")
          | None =>
              let response := {| HasAccess := hasAccess; CheckReason := reason;
                                 CheckExpiresAt := expiresAt |} in
              ({| cache := cacheAccessResult now (cache s) cacheKey response;
                  subscriptionSvc := subscriptionSvc s |},
               {| status := StatusOK; body := CheckBody response |},
               if hasAccess then "access_granted" else "access_denied")
          end
      end
  end.

End CheckAccess.

(** *** Vocabulary of the properties *)

(** The counter under [key] holds [n] and expires at [when] (server
    milliseconds). *)
Definition counterAt (c : gmap string Cache.Entry) (key : string) (n when : Z) : Prop :=
  c !! key = Some {| Cache.value := Cache.ll2string n; Cache.expireAt := Some when |}.

(** The expiry [incrementUsage] asks for at [now]: the whole seconds left
    until 23:59:59 of the day, counted from the server's millisecond. *)
Definition usageExpiry (now : Time) : Z :=
  Cache.mstime now + Cache.formatSec (Sub (endOfDay now) now) * 1000.

(** [t] lies on the calendar day of [t1], at least one second before its
    23:59:59. *)
Definition sameDay (t1 t : Time) : Prop :=
  t / Day = t1 / Day /\ t mod Day <= 86398 * Second.

(** The response to an allowed call that read [n] from the usage counter. *)
Definition allowedResponse (expiresAt : Time) (n : Z) : Response :=
  {| status := StatusOK;
     body := EnforceBody {| Allowed := true; Reason := ""; ExpiresAt := expiresAt;
                            Usage := {| Current := n; Limit := 100;
                                        Remaining := Z.max 0 (100 - n) |} |} |}.

(** [n] allowed responses whose snapshots read [k], [k + 1], ... *)
Fixpoint allowedResponses (expiresAt : Time) (k : Z) (n : nat) : list Response :=
  match n with
  | O => []
  | S n' => allowedResponse expiresAt k :: allowedResponses expiresAt (k + 1) n'
  end.

(** The usage snapshot a response carries, if any. *)
Definition usageOf (r : Response) : option UsageInfo :=
  match body r with
  | EnforceBody e => Some (Usage e)
  | _ => None
  end.

(** After [k] allowed calls in the window opened at [t1]: both counters
    read [k], the limiter's expires with the window and the accountant's
    within the last second before 23:59:59. *)
Definition countersAt (t1 : Time) (userID action : string)
    (k : Z) (c : gmap string Cache.Entry) : Prop :=
  counterAt c (rateLimitKey userID action) k (Cache.mstime t1 + 60000) /\
  exists when,
    counterAt c (usageKey userID action) k when /\
    Cache.mstime (endOfDay t1) - 1000 <= when.

Definition rateLimitedResponse : Response :=
  {| status := StatusTooManyRequests; body := ErrorBody "Rate limit exceeded" |}.

End Paywall.

(** ** Package [payment]: the payment and webhook handlers *)

Module PaymentService.
Import GoInt GoTime Payment.

(** What [c.JSON(status, body)] writes. *)
Inductive Body (A : Type) :=
| ErrorBody (error : string)        (* gin.H{"error": ...} *)
| ReceivedBody                      (* gin.H{"status": "received"} *)
| PaymentBody (r : A).
Arguments ErrorBody {A} error.
Arguments ReceivedBody {A}.
Arguments PaymentBody {A} r.

Record Response (A : Type) := {
  status : Z;
  body : Body A
}.
Arguments status {A} r.
Arguments body {A} r.

Definition StatusOK : Z := 200.
Definition StatusBadRequest : Z := 400.
Definition StatusUnauthorized : Z := 401.
Definition StatusInternalServerError : Z := 500.
Definition StatusServiceUnavailable : Z := 503.

(** Why an [INSERT] failed. *)
Inductive ExecError :=
| ConnError          (* the statement could not be run *)
| InvalidText        (* a value does not fit the type of its column *)
| UniqueViolation.   (* a row with this primary key exists *)

Section Handlers.

(** The type of amounts, which the handlers only copy. *)
Context {float64 : Type}.

(** Seconds east of UTC of the server's zone: [time.Now().UnixNano()] is
    the clock's instant less this offset. *)
Variable zoneOffset : Z.

(** [json.Marshal] of a webhook event, as text. *)
Variable json_Marshal : WebhookEvent -> string.

(** What the store makes of the values the [INSERT INTO webhook_events]
    gives for [event_type], [source] and [payload], read in the types of
    these columns ([VARCHAR(100)], [VARCHAR(50)], [JSONB]): the values as
    stored, or [None] when it rejects one of them. *)
Variable columns_in : string -> string -> string -> option (string * string * string).

Record PaymentRequest := {
  UserID : string;
  PlanID : string;
  Amount : float64;
  Currency : string;
  PaymentMethod : string;
  Description : string
}.

Record PaymentResponse := {
  TransactionID : string;
  Status : string;
  ResponseAmount : float64;
  ResponseCurrency : string;
  CreatedAt : Time;
  GatewayID : string
}.

(** The arguments of the [INSERT INTO payment_transactions]; the last one
    is the document with the entries [status] and [gateway_id]. *)
Record TransactionInsert := {
  tx_id : string;
  tx_user_id : string;
  tx_amount : float64;
  tx_currency : string;
  tx_status : string;
  tx_payment_method : string;
  tx_gateway_transaction_id : string;
  tx_gateway_response : string * string
}.

Definition UnixNano (t : Time) : Z := t - zoneOffset * Second.

(** [fmt.Sprintf("%d", n)] for an [int64]. *)
Definition formatInt (n : Z) : string := Cache.ll2string n.

(** The simulated gateway, reading the clock at [now] (after its sleep). *)
Definition processPaymentThroughGateway (now : Time) (req : PaymentRequest)
    : Result string PaymentResponse :=
  if Z.rem (UnixNano now) 100 <? 5 then Err "gateway timeout"
  else Ok {| TransactionID := "txn_" +:+ formatInt (UnixNano now);
             Status := "completed";
             ResponseAmount := Amount req;
             ResponseCurrency := Currency req;
             CreatedAt := now;
             GatewayID := "gw_" +:+ formatInt (UnixNano now) |}.

(** The gateway fails at the instants whose nanosecond count leaves a
    remainder below 5 on division by 100. *)
Definition gatewayDown (now : Time) : Prop := Z.rem (UnixNano now) 100 < 5.

(** The statement [storeTransaction] sends; whether the store takes it is
    only logged. *)
Definition storeTransaction (req : PaymentRequest) (response : PaymentResponse)
    : TransactionInsert :=
  {| tx_id := TransactionID response;
     tx_user_id := UserID req;
     tx_amount := ResponseAmount response;
     tx_currency := ResponseCurrency response;
     tx_status := Status response;
     tx_payment_method := PaymentMethod req;
     tx_gateway_transaction_id := GatewayID response;
     tx_gateway_response := (Status response, GatewayID response) |}.

(** The breaker is asked at [now]; the gateway answers, and its outcome is
    recorded, at [done] (the gateway sleeps 100 ms in between). The result:
    the breaker after the call, the response, the status label given to
    [telemetry.RecordPaymentOperation], and the [INSERT] sent, if any. *)
Definition ProcessPayment (now done : Time) (cb : CircuitBreaker)
    (bound : Result string PaymentRequest)
    : CircuitBreaker * Response PaymentResponse * string * option TransactionInsert :=
  match bound with
  | Err msg =>
      (cb, {| status := StatusBadRequest; body := ErrorBody msg |}, "validation_error", None)
  | Ok req =>
      let '(ok, cb1) := CanExecute now cb in
      if negb ok then
        (cb1, {| status := StatusServiceUnavailable;
                 body := ErrorBody "Payment service temporarily unavailable" |},
         "circuit_breaker_open", None)
      else
        match processPaymentThroughGateway done req with
        | Err _ =>
            (RecordFailure done cb1,
             {| status := StatusInternalServerError;
                body := ErrorBody "Payment processing failed" |},
             "gateway_error", None)
        | Ok response =>
            (RecordSuccess cb1,
             {| status := StatusOK; body := PaymentBody response |},
             "success", Some (storeTransaction req response))
        end
  end.

(** Requests served one after the other, each with its two instants. *)
Fixpoint processAll (ts : list (Time * Time)) (cb : CircuitBreaker) (req : PaymentRequest)
    : CircuitBreaker * list Z :=
  match ts with
  | [] => (cb, [])
  | (now, done) :: ts' =>
      let '(cb1, r, _, _) := ProcessPayment now done cb (Ok req) in
      let '(cb2, rs) := processAll ts' cb1 req in
      (cb2, status r :: rs)
  end.

(** [verifyWebhookSignature]: the request is not looked at. *)
Definition verifyWebhookSignature (signature : string) : bool := true.

(** [INSERT INTO webhook_events (id, event_type, source, payload)]: [id],
    of type [UUID], is the primary key; the other columns take their
    defaults. The error of [json.Marshal] is dropped, as in the source. *)
Definition storeWebhookEvent (now : Time) (db : DB.Connection) (event : WebhookEvent)
    : DB.Connection * option ExecError :=
  let payload := json_Marshal event in
  if negb (DB.available db) then (db, Some ConnError)
  else
    match Postgres.uuid_in (ID event), columns_in (Type_ event) "stripe" payload with
    | Some i, Some (t, src, p) =>
        if existsb (fun r => String.eqb (DB.id r) i) (DB.webhook_events db) then
          (db, Some UniqueViolation)
        else
          (DB.withWebhookEvents db
             (DB.webhook_events db ++
              [{| DB.id := i; DB.event_type := t; DB.source := src;
                  DB.payload := p; DB.processed := false;
                  DB.processed_at := None; DB.created_at := now |}]), None)
    | _, _ => (db, Some InvalidText)
    end.

(** The store after the call, the response (which never carries a payment),
    and the event handed to the detached handler, if any. *)
Definition HandleWebhook (now : Time) (db : DB.Connection) (signature : string)
    (bound : Result string WebhookEvent)
    : DB.Connection * Response Empty_set * option WebhookEvent :=
  if negb (verifyWebhookSignature signature) then
    (db, {| status := StatusUnauthorized; body := ErrorBody "Invalid webhook signature" |}, None)
  else
    match bound with
    | Err msg => (db, {| status := StatusBadRequest; body := ErrorBody msg |}, None)
    | Ok event =>
        match storeWebhookEvent now db event with
        | (db1, Some _) =>
            (db1, {| status := StatusInternalServerError;
                     body := ErrorBody "Failed to process webhook" |}, None)
        | (db1, None) =>
            (db1, {| status := StatusOK; body := ReceivedBody |}, Some event)
        end
    end.

(** A delivery at [now] followed by the run of its detached handler at
    [later]. *)
Definition deliver (now later : Time) (db : DB.Connection) (signature : string)
    (event : WebhookEvent) : DB.Connection * Z :=
  let '(db1, r, task) := HandleWebhook now db signature (Ok event) in
  match task with
  | Some e => (fst (processWebhookEvent later db1 e), status r)
  | None => (db1, status r)
  end.

End Handlers.

Definition samplePayment : @PaymentRequest Z :=
  {| UserID := "7c9e6679-7425-40de-944b-e07fc1f90ae7"; PlanID := "c56a4180-65aa-42ec-a945-5fd21dec0538"; Amount := 999; Currency := "USD";
     PaymentMethod := "card"; Description := "monthly" |}.

(** A configuration with both switches off. *)
Definition switchedOff : CircuitBreakerConfig :=
  {| Enabled := false; FailureThreshold := 5; RecoveryTimeout := 60; HalfOpenRequests := 0 |}.

(** The answers of the [CanExecute] calls of a sequence of calls, and the
    breaker after it. *)
Fixpoint trace (cs : list Call) (cb : CircuitBreaker) : list bool * CircuitBreaker :=
  match cs with
  | [] => ([], cb)
  | CallCanExecute now :: cs' =>
      let '(b, cb1) := CanExecute now cb in
      let '(bs, cb2) := trace cs' cb1 in
      (b :: bs, cb2)
  | c :: cs' => trace cs' (call cb c)
  end.

(** Two breakers that differ at most in the [Enabled] and
    [HalfOpenRequests] entries of their configuration. *)
Definition sameButSwitches (cb cb' : CircuitBreaker) : Prop :=
  state cb = state cb' /\
  failureCount cb = failureCount cb' /\
  lastFailureTime cb = lastFailureTime cb' /\
  FailureThreshold (config cb) = FailureThreshold (config cb') /\
  RecoveryTimeout (config cb) = RecoveryTimeout (config cb').

End PaymentService.

(** ** Scenarios the properties are tried on *)

Module Scenario.
Import GoTime Paywall.

(** Subject [u1], subscribed to plan [p1] until minute 10. *)
Definition sub1 : DB.Subscription :=
  {| DB.ID := "9a1d3f5e-2b4c-4d6e-8f7a-1b2c3d4e5f6a"; DB.UserID := "7c9e6679-7425-40de-944b-e07fc1f90ae7"; DB.PlanID := "c56a4180-65aa-42ec-a945-5fd21dec0538"; DB.Status := "active";
     DB.StartDate := 0; DB.EndDate := 10 * Minute; DB.AutoRenew := true;
     DB.PaymentMethod := "card"; DB.Currency := "USD";
     DB.CreatedAt := 0; DB.UpdatedAt := 0 |}.

(** The same subscription, running until the end of the day. *)
Definition subDay : DB.Subscription :=
  {| DB.ID := "9a1d3f5e-2b4c-4d6e-8f7a-1b2c3d4e5f6a"; DB.UserID := "7c9e6679-7425-40de-944b-e07fc1f90ae7"; DB.PlanID := "c56a4180-65aa-42ec-a945-5fd21dec0538"; DB.Status := "active";
     DB.StartDate := 0; DB.EndDate := Day; DB.AutoRenew := true;
     DB.PaymentMethod := "card"; DB.Currency := "USD";
     DB.CreatedAt := 0; DB.UpdatedAt := 0 |}.

(** The row that scans to [sub]. *)
Definition rowOf (sub : DB.Subscription) : DB.SubscriptionRow :=
  {| DB.sub_id := DB.ID sub; DB.sub_user_id := DB.UserID sub; DB.sub_plan_id := DB.PlanID sub;
     DB.sub_status := DB.Status sub; DB.sub_start_date := DB.StartDate sub;
     DB.sub_end_date := DB.EndDate sub; DB.sub_auto_renew := Some (DB.AutoRenew sub);
     DB.sub_payment_method := Some (DB.PaymentMethod sub);
     DB.sub_currency := Some (DB.Currency sub);
     DB.sub_created_at := Some (DB.CreatedAt sub);
     DB.sub_updated_at := Some (DB.UpdatedAt sub) |}.

(** A store whose table has the columns the code names. *)
Definition serviceOf (available : bool) (subs : list DB.Subscription) : Service :=
  {| cache := ∅;
     subscriptionSvc := {| DB.available := available;
                           DB.subscription_columns := Subscription.selectColumns;
                           DB.subscriptions := map rowOf subs;
                           DB.webhook_events := [] |} |}.

(** A store built from the migration of the repository, holding the
    subscription of [sub1]. *)
Definition svcMigration : Service :=
  {| cache := ∅;
     subscriptionSvc := {| DB.available := true;
                           DB.subscription_columns := DB.migration001;
                           DB.subscriptions := [rowOf sub1];
                           DB.webhook_events := [] |} |}.

Definition svc1 : Service := serviceOf true [sub1].
Definition svcDay : Service := serviceOf true [subDay].
Definition svcNoSubscription : Service := serviceOf true [].
Definition svcOutage : Service := serviceOf false [sub1].

Definition view : PaywallEnforceRequest :=
  {| UserID := "7c9e6679-7425-40de-944b-e07fc1f90ae7"; ContentID := "article-42"; Action := "view" |}.

Definition check : PaywallCheckRequest :=
  {| CheckUserID := "7c9e6679-7425-40de-944b-e07fc1f90ae7"; CheckContentID := "article-42"; CheckPlanID := "c56a4180-65aa-42ec-a945-5fd21dec0538" |}.

(** [n] instants, [step] apart, from instant 0. *)
Definition every (step : Duration) (n : nat) : list Time :=
  map (fun i => Z.of_nat i * step) (seq 0 n).


End Scenario.

(** * Properties *)

Module GoIntFacts.
Import GoInt.

Lemma wrap64_id z : minInt64 <= z <= maxInt64 -> wrap64 z = z.
Proof.
  unfold wrap64, minInt64, maxInt64. intros Hz.
  rewrite Z.mod_small; lia.
Qed.

Lemma wrap64_max_succ : wrap64 (maxInt64 + 1) = minInt64.
Proof. reflexivity. Qed.

End GoIntFacts.

(** Case analysis on every integer comparison of the goal. *)
Ltac zcompare :=
repeat match goal with
  | |- context [?a <? ?b] => destruct (Z.ltb_spec a b)
  | |- context [?a <=? ?b] => destruct (Z.leb_spec a b)
  | |- context [?a =? ?b] => destruct (Z.eqb_spec a b)
  end.

(** ** Decimal text of integers *)

Module DecimalFacts.
Import GoInt Strconv Cache.

Lemma digitChar_spec d :
  0 <= d <= 9 ->
  isDigit (digitChar d) = true /\
  Z.of_N (N_of_ascii (digitChar d)) - 48 = d /\
  Ascii.eqb (digitChar d) "-" = false /\
  Ascii.eqb (digitChar d) "+" = false.
Proof.
  intros Hd.
  assert (Hcases : d = 0 \/ d = 1 \/ d = 2 \/ d = 3 \/ d = 4 \/
                   d = 5 \/ d = 6 \/ d = 7 \/ d = 8 \/ d = 9) by lia.
  repeat destruct Hcases as [->|Hcases]; try subst d; repeat split; reflexivity.
Qed.

(** Reading back what [digitsOf] printed in front of [acc]. *)
Lemma parseDigits_digitsOf fuel : forall n acc,
  0 <= n < 10 ^ Z.of_nat fuel ->
  parseDigits (digitsOf fuel n acc) 0 = parseDigits acc n.
Proof.
  induction fuel as [|fuel IH]; intros n acc Hn.
  - cbn in *. by replace n with 0 by lia.
  - cbn [digitsOf].
    assert (Hmod : 0 <= n mod 10 <= 9) by (pose proof (Z.mod_pos_bound n 10); lia).
    destruct (digitChar_spec _ Hmod) as (Hdig & Hval & _).
    destruct (Z.ltb_spec n 10).
    + cbn [parseDigits]. rewrite Hdig, Hval.
      rewrite Z.mod_small by lia. f_equal; lia.
    + rewrite IH.
      * cbn [parseDigits]. rewrite Hdig, Hval. f_equal.
        pose proof (Z.div_mod n 10). lia.
      * rewrite Nat2Z.inj_succ, Z.pow_succ_r in Hn by lia.
        split; [apply Z.div_pos; lia|].
        apply Z.div_lt_upper_bound; lia.
Qed.

(** The printed text starts with a digit. *)
Lemma digitsOf_head fuel : forall n acc,
  exists d rest, 0 <= d <= 9 /\ digitsOf (S fuel) n acc = String (digitChar d) rest.
Proof.
  induction fuel as [|fuel IH]; intros n acc.
  - exists (n mod 10), acc. split; [pose proof (Z.mod_pos_bound n 10); lia|].
    cbn. by destruct (n <? 10).
  - change (digitsOf (S (S fuel)) n acc) with
      (if n <? 10 then String (digitChar (n mod 10)) acc
       else digitsOf (S fuel) (n / 10) (String (digitChar (n mod 10)) acc)).
    destruct (n <? 10).
    + exists (n mod 10), acc. split; [pose proof (Z.mod_pos_bound n 10); lia|done].
    + apply IH.
Qed.

Lemma parseUint_digitsOf n :
  0 <= n < 10 ^ 20 -> parseUint (digitsOf 20 n EmptyString) = Some n.
Proof.
  intros Hn. destruct (digitsOf_head 19 n EmptyString) as (d & rest & Hd & Heq).
  unfold parseUint. rewrite Heq, <- Heq.
  by rewrite parseDigits_digitsOf.
Qed.

Lemma Atoi_ll2string n :
  minInt64 <= n <= maxInt64 -> Atoi (ll2string n) = Some n.
Proof.
  unfold minInt64, maxInt64. intros Hn. unfold Atoi, ll2string.
  destruct (Z.ltb_spec n 0).
  - change (Ascii.eqb "-" "-") with true. cbv iota.
    rewrite parseUint_digitsOf by lia. cbn [fmap option_fmap option_map mbind option_bind].
    rewrite Z.opp_involutive. unfold in_int64, minInt64, maxInt64.
    by rewrite (proj2 (Z.leb_le _ _) (proj1 Hn)), (proj2 (Z.leb_le _ _) (proj2 Hn)).
  - destruct (digitsOf_head 19 n EmptyString) as (d & rest & Hd & Heq).
    destruct (digitChar_spec _ Hd) as (_ & _ & Hminus & Hplus).
    rewrite Heq, Hminus, Hplus, <- Heq.
    rewrite parseUint_digitsOf by lia. cbn [mbind option_bind].
    unfold in_int64, minInt64, maxInt64.
    by rewrite (proj2 (Z.leb_le _ _) (proj1 Hn)), (proj2 (Z.leb_le _ _) (proj2 Hn)).
Qed.

Lemma string2ll_ll2string n :
  minInt64 <= n <= maxInt64 -> string2ll (ll2string n) = Some n.
Proof.
  intros Hn. unfold string2ll. by rewrite Atoi_ll2string, String.eqb_refl.
Qed.

End DecimalFacts.

(** ** The cache *)

Module CacheFacts.
Import GoInt GoTime Strconv Cache DecimalFacts.

Lemma find_live now key (c : gmap string Entry) e :
  c !! key = Some e -> expired now e = false -> find now key c = Some e.
Proof. intros Hc He. unfold find. by rewrite Hc, He. Qed.

Lemma find_absent now key (c : gmap string Entry) :
  c !! key = None -> find now key c = None.
Proof. intros Hc. unfold find. by rewrite Hc. Qed.

Lemma find_expired now key (c : gmap string Entry) v when :
  c !! key = Some {| value := v; expireAt := Some when |} ->
  when < mstime now -> find now key c = None.
Proof.
  intros Hc Hw. unfold find, expired. rewrite Hc. cbn.
  by rewrite (proj2 (Z.ltb_lt _ _) Hw).
Qed.

Lemma expired_false now v when :
  mstime now <= when -> expired now {| value := v; expireAt := Some when |} = false.
Proof. intros Hw. unfold expired; cbn. apply Z.ltb_ge. lia. Qed.

Lemma Set_Minute now key v (c : gmap string Entry) :
  Set_ now key v Minute c =
    (<[key := {| value := v; expireAt := Some (mstime now + 60000) |}]> c, None).
Proof. reflexivity. Qed.

Lemma Incr_absent now key (c : gmap string Entry) :
  find now key c = None ->
  Incr now key c = (<[key := {| value := "1"; expireAt := None |}]> c, Ok 1).
Proof. intros Hf. unfold Incr. by rewrite Hf. Qed.

Lemma Incr_counter now key (c : gmap string Entry) n ea :
  find now key c = Some {| value := ll2string n; expireAt := ea |} ->
  minInt64 <= n < maxInt64 ->
  Incr now key c =
    (<[key := {| value := ll2string (n + 1); expireAt := ea |}]> c, Ok (n + 1)).
Proof.
  intros Hf Hn. unfold Incr. rewrite Hf. cbn [value expireAt].
  rewrite string2ll_ll2string by lia.
  by rewrite (proj2 (Z.ltb_lt _ _) (proj2 Hn)).
Qed.

Lemma mstime_window (t1 t : Time) : t < t1 + Minute -> mstime t <= mstime t1 + 60000.
Proof.
  unfold mstime, Minute, Second, Millisecond. intros Ht.
  pose proof (Z.div_mod t 1000000). pose proof (Z.mod_pos_bound t 1000000).
  pose proof (Z.div_mod t1 1000000). pose proof (Z.mod_pos_bound t1 1000000).
  lia.
Qed.

End CacheFacts.

(** ** The rate limiter *)

Module RateLimitProofs.
Import GoInt GoTime Strconv Cache Paywall DecimalFacts CacheFacts.

(** First request of a window: the counter is created at 1 and lives for
    one minute. *)
Lemma checkRateLimit_fresh now (c : gmap string Entry) userID action :
  find now (rateLimitKey userID action) c = None ->
  checkRateLimit now c userID action =
    (<[rateLimitKey userID action :=
         {| value := "1"; expireAt := Some (mstime now + 60000) |}]> c, true).
Proof.
  intros Hf. unfold checkRateLimit, Get. rewrite Hf. by rewrite Set_Minute.
Qed.

(** Below the limit the counter is incremented and keeps its expiry. *)
Lemma checkRateLimit_below now (c : gmap string Entry) userID action n when :
  counterAt c (rateLimitKey userID action) n when ->
  mstime now <= when -> minInt64 <= n < 10 ->
  checkRateLimit now c userID action =
    (<[rateLimitKey userID action :=
         {| value := ll2string (n + 1); expireAt := Some when |}]> c, true).
Proof.
  intros Hc Hw Hn. unfold counterAt in Hc.
  pose proof (find_live now _ _ _ Hc (expired_false _ _ _ Hw)) as Hf.
  unfold checkRateLimit, Get. rewrite Hf. cbn [value].
  rewrite Atoi_ll2string by (unfold maxInt64; lia).
  destruct (Z.leb_spec 10 n); [lia|].
  rewrite (Incr_counter _ _ _ _ _ Hf) by (unfold maxInt64; lia). done.
Qed.

(** At the limit the request is refused and the store is left as it is. *)
Lemma checkRateLimit_full now (c : gmap string Entry) userID action n when :
  counterAt c (rateLimitKey userID action) n when ->
  mstime now <= when -> 10 <= n <= maxInt64 ->
  checkRateLimit now c userID action = (c, false).
Proof.
  intros Hc Hw Hn. unfold counterAt in Hc.
  pose proof (find_live now _ _ _ Hc (expired_false _ _ _ Hw)) as Hf.
  unfold checkRateLimit, Get. rewrite Hf. cbn [value].
  rewrite Atoi_ll2string by (unfold minInt64; lia).
  by destruct (Z.leb_spec 10 n); [|lia].
Qed.

(** The limiter writes under its own key only. *)
Lemma checkRateLimit_frame now (c : gmap string Entry) userID action k :
  k <> rateLimitKey userID action ->
  fst (checkRateLimit now c userID action) !! k = c !! k.
Proof.
  intros Hk. unfold checkRateLimit.
  destruct (Get _ _ _) as [current|err]; [destruct (Atoi current) as [count|]|].
  - destruct (10 <=? count); [done|]. unfold Incr.
    destruct (find _ _ _) as [e|]; [destruct (string2ll _) as [n|]|]; cbn [fst]; try done.
    + destruct (n <? maxInt64); cbn [fst]; [|done]. by rewrite lookup_insert_ne.
    + by rewrite lookup_insert_ne.
  - unfold Set_; cbn [fst]. by rewrite lookup_insert_ne.
  - unfold Set_; cbn [fst]. by rewrite lookup_insert_ne.
Qed.

(** Requests inside the window, as long as the limit is not reached. *)
Lemma rateLimitAll_below userID action when (ts : list Time) :
  forall (c : gmap string Entry) n,
  counterAt c (rateLimitKey userID action) n when ->
  0 <= n -> n + Z.of_nat (length ts) <= 10 ->
  Forall (fun t => mstime t <= when) ts ->
  exists c',
    rateLimitAll ts c userID action = (c', replicate (length ts) true) /\
    counterAt c' (rateLimitKey userID action) (n + Z.of_nat (length ts)) when /\
    (forall k, k <> rateLimitKey userID action -> c' !! k = c !! k).
Proof.
  induction ts as [|t ts IH]; intros c n Hc Hn Hlen Hts.
  - exists c. cbn. rewrite Z.add_0_r. done.
  - cbn [length] in Hlen. inversion Hts as [|? ? Ht Hts']; subst.
    cbn [rateLimitAll].
    rewrite (checkRateLimit_below _ _ _ _ _ _ Hc Ht) by (unfold minInt64; lia).
    destruct (IH (<[rateLimitKey userID action :=
                      {| value := ll2string (n + 1); expireAt := Some when |}]> c) (n + 1))
      as (c' & Hrun & Hc' & Hframe); try lia; try assumption.
    { unfold counterAt. apply lookup_insert_eq. }
    exists c'. rewrite Hrun. cbn [length replicate]. split; [done|]. split.
    + replace (n + Z.of_nat (S (length ts))) with (n + 1 + Z.of_nat (length ts)) by lia.
      done.
    + intros k Hk. rewrite Hframe by done. by rewrite lookup_insert_ne.
Qed.

(** C7. With no live counter for the pair at [t1], the call at [t1] and
    the nine calls after it inside the window it opens all return true; an
    eleventh call inside the window returns false and leaves the store
    untouched; and once the counter has expired a call returns true again. *)
Theorem rate_limit_window (c : gmap string Entry) userID action
    (t1 : Time) (ts : list Time) (t11 t' : Time) :
  find t1 (rateLimitKey userID action) c = None ->
  length ts = 9%nat ->
  Forall (fun t => t < t1 + Minute) (ts ++ [t11]) ->
  mstime t1 + 60000 < mstime t' ->
  exists c10,
    rateLimitAll (t1 :: ts) c userID action = (c10, replicate 10 true) /\
    checkRateLimit t11 c10 userID action = (c10, false) /\
    snd (checkRateLimit t' c10 userID action) = true.
Proof.
  intros Hfresh Hlen Hwin Hafter.
  apply Forall_app in Hwin as [Hts Ht11]. inversion Ht11 as [|? ? Ht11' _]; subst.
  cbn [rateLimitAll]. rewrite (checkRateLimit_fresh _ _ _ _ Hfresh).
  destruct (rateLimitAll_below userID action (mstime t1 + 60000) ts
              (<[rateLimitKey userID action :=
                   {| value := "1"; expireAt := Some (mstime t1 + 60000) |}]> c) 1)
    as (c10 & Hrun & Hc10 & _).
  - unfold counterAt. apply lookup_insert_eq.
  - lia.
  - lia.
  - eapply Forall_impl; [exact Hts|]. intros t Ht. by apply mstime_window.
  - exists c10. rewrite Hrun, Hlen. split; [done|]. split.
    + eapply checkRateLimit_full; [exact Hc10| by apply mstime_window |].
      unfold maxInt64; lia.
    + rewrite checkRateLimit_fresh; [done|].
      eapply find_expired; [exact Hc10|done].
Qed.

Lemma rate_limit_window_witness :
  find 0 (rateLimitKey "7c9e6679-7425-40de-944b-e07fc1f90ae7" "view") ∅ = None /\
  exists c10,
    rateLimitAll (0 :: tail (Scenario.every Second 10)) ∅ "7c9e6679-7425-40de-944b-e07fc1f90ae7" "view"
      = (c10, replicate 10 true) /\
    checkRateLimit (10 * Second) c10 "7c9e6679-7425-40de-944b-e07fc1f90ae7" "view" = (c10, false) /\
    snd (checkRateLimit (61 * Second) c10 "7c9e6679-7425-40de-944b-e07fc1f90ae7" "view") = true.
Proof.
  split; [reflexivity|].
  apply (rate_limit_window ∅ "7c9e6679-7425-40de-944b-e07fc1f90ae7" "view" 0
           (tail (Scenario.every Second 10)) (10 * Second) (61 * Second)).
  - reflexivity.
  - reflexivity.
  - repeat constructor; vm_compute; reflexivity.
  - vm_compute; reflexivity.
Defined.

End RateLimitProofs.

(** ** The usage accountant *)

Module UsageProofs.
Import GoInt GoTime Strconv Cache Paywall DecimalFacts CacheFacts.

Lemma keys_differ userID action userID' action' :
  rateLimitKey userID action <> usageKey userID' action'.
Proof. unfold rateLimitKey, usageKey. cbn. discriminate. Qed.

(** Away from the last second of the day the expiry asked for lies in the
    future, within one second of 23:59:59. *)
Lemma usageExpiry_day now :
  now mod Day <= 86398 * Second ->
  usageExpiry now = mstime now + (endOfDay now - now) / Second * 1000 /\
  mstime now < usageExpiry now /\
  mstime (endOfDay now) - 1000 <= usageExpiry now.
Proof.
  unfold usageExpiry, formatSec, Sub, endOfDay, mstime, minInt64, maxInt64,
    Day, Hour, Minute, Second, Millisecond.
  change (24 * (60 * (60 * 1000000000))) with 86400000000000.
  intros Hday.
  pose proof (Z.mod_pos_bound now 86400000000000) as Hmod.
  set (m := now mod 86400000000000) in *.
  set (d := now - m + 86399 * 1000000000 - now).
  assert (Hd : 1000000000 <= d <= 86399000000000) by (unfold d; lia).
  destruct (Z.ltb_spec 9223372036854775807 d); [lia|].
  destruct (Z.ltb_spec d (-9223372036854775808)); [lia|].
  destruct (Z.ltb_spec 0 d); [|lia].
  destruct (Z.ltb_spec d 1000000000); [lia|]. cbn [andb].
  rewrite Z.quot_div_nonneg by lia.
  split; [reflexivity|].
  assert (Hday' : exists q, now - m = 86400000000000 * q).
  { exists (now / 86400000000000). unfold m.
    pose proof (Z.div_mod now 86400000000000). lia. }
  destruct Hday' as [q Hq].
  pose proof (Z.div_mod d 1000000000). pose proof (Z.mod_pos_bound d 1000000000).
  pose proof (Z.div_mod now 1000000). pose proof (Z.mod_pos_bound now 1000000).
  pose proof (Z.div_mod (now - m + 86399 * 1000000000) 1000000).
  pose proof (Z.mod_pos_bound (now - m + 86399 * 1000000000) 1000000).
  unfold d in *. lia.
Qed.

Lemma sameDay_endOfDay t1 t :
  sameDay t1 t ->
  endOfDay t = endOfDay t1 /\ mstime t <= mstime (endOfDay t1) - 1000.
Proof.
  unfold sameDay, endOfDay, mstime, Day, Hour, Minute, Second, Millisecond.
  intros [Hdiv Hmod].
  pose proof (Z.div_mod t 86400000000000). pose proof (Z.mod_pos_bound t 86400000000000).
  pose proof (Z.div_mod t1 86400000000000). pose proof (Z.mod_pos_bound t1 86400000000000).
  change (24 * (60 * (60 * 1000000000))) with 86400000000000 in *.
  assert (Heq : t - t mod 86400000000000 = t1 - t1 mod 86400000000000) by lia.
  split; [lia|]. rewrite <- Heq.
  pose proof (Z.div_mod t 1000000). pose proof (Z.mod_pos_bound t 1000000).
  pose proof (Z.div_mod (t - t mod 86400000000000 + 86399 * 1000000000) 1000000).
  pose proof (Z.mod_pos_bound (t - t mod 86400000000000 + 86399 * 1000000000) 1000000).
  lia.
Qed.

Lemma checkUsageLimits_absent now (c : gmap string Entry) userID action :
  find now (usageKey userID action) c = None ->
  checkUsageLimits now c userID action =
    ({| Current := 0; Limit := 100; Remaining := 100 |}, None).
Proof. intros Hf. unfold checkUsageLimits, Get. by rewrite Hf. Qed.

(** The snapshot: the counter as read, and what is left of the quota. *)
Lemma checkUsageLimits_counter now (c : gmap string Entry) userID action n ea :
  find now (usageKey userID action) c = Some {| value := ll2string n; expireAt := ea |} ->
  0 <= n <= maxInt64 ->
  checkUsageLimits now c userID action =
    ({| Current := n; Limit := 100; Remaining := Z.max 0 (100 - n) |}, None).
Proof.
  intros Hf Hn. unfold checkUsageLimits, Get. rewrite Hf. cbn [value].
  rewrite Atoi_ll2string by (unfold minInt64; lia).
  rewrite GoIntFacts.wrap64_id by (unfold minInt64, maxInt64 in *; lia).
  repeat f_equal. destruct (Z.ltb_spec (100 - n) 0); lia.
Qed.

Lemma incrementUsage_absent now (c : gmap string Entry) userID action :
  find now (usageKey userID action) c = None ->
  now mod Day <= 86398 * Second ->
  incrementUsage now c userID action =
    (<[usageKey userID action :=
         {| value := "1"; expireAt := Some (usageExpiry now) |}]> c, None).
Proof.
  intros Hf Hday. destruct (usageExpiry_day _ Hday) as (_ & Hfuture & _).
  unfold incrementUsage. rewrite (Incr_absent _ _ _ Hf).
  unfold Expire. erewrite find_live; [|apply lookup_insert_eq|reflexivity].
  fold (usageExpiry now). cbn [value].
  destruct (Z.leb_spec (usageExpiry now) (mstime now)); [lia|].
  by rewrite insert_insert_eq.
Qed.

Lemma incrementUsage_counter now (c : gmap string Entry) userID action n ea :
  find now (usageKey userID action) c = Some {| value := ll2string n; expireAt := ea |} ->
  minInt64 <= n < maxInt64 ->
  now mod Day <= 86398 * Second ->
  incrementUsage now c userID action =
    (<[usageKey userID action :=
         {| value := ll2string (n + 1); expireAt := Some (usageExpiry now) |}]> c, None).
Proof.
  intros Hf Hn Hday. destruct (usageExpiry_day _ Hday) as (_ & Hfuture & _).
  unfold incrementUsage. rewrite (Incr_counter _ _ _ _ _ Hf Hn).
  assert (Hlive : expired now {| value := ll2string (n + 1); expireAt := ea |} = false).
  { unfold find in Hf. destruct (c !! usageKey userID action) as [e|]; [|done].
    destruct (expired now e) eqn:He; [done|]. injection Hf as ->. exact He. }
  unfold Expire. erewrite find_live; [|apply lookup_insert_eq|exact Hlive].
  fold (usageExpiry now). cbn [value].
  destruct (Z.leb_spec (usageExpiry now) (mstime now)); [lia|].
  by rewrite insert_insert_eq.
Qed.


(** From 23:59:59 on it is no whole second. *)
Lemma formatSec_last_second now :
  86399 * Second <= now mod Day -> formatSec (Sub (endOfDay now) now) = 0.
Proof.
  unfold formatSec, Sub, endOfDay, minInt64, maxInt64, Day, Hour, Minute, Second.
  change (24 * (60 * (60 * 1000000000))) with 86400000000000. intros Hlast.
  pose proof (Z.mod_pos_bound now 86400000000000) as Hmod.
  set (m := now mod 86400000000000) in *.
  set (d := now - m + 86399 * 1000000000 - now).
  assert (Hd : -1000000000 < d <= 0) by (unfold d; lia).
  destruct (Z.ltb_spec 9223372036854775807 d); [lia|].
  destruct (Z.ltb_spec d (-9223372036854775808)); [lia|].
  destruct (Z.ltb_spec 0 d); [lia|]. cbn [andb].
  replace d with (- (- d)) by lia. rewrite Z.quot_opp_l by lia.
  rewrite Z.quot_small by lia. reflexivity.
Qed.

Lemma find_Some_live now key (c : gmap string Entry) e :
  find now key c = Some e -> expired now e = false.
Proof.
  unfold find. destruct (c !! key) as [e'|]; [|done].
  destruct (expired now e') eqn:He; [done|]. by intros [= <-].
Qed.


(** An increment from 23:59:59 on: the key is removed. *)
Lemma incrementUsage_last_second now (c : gmap string Entry) userID action :
  86399 * Second <= now mod Day ->
  (find now (usageKey userID action) c = None \/
   exists n ea, find now (usageKey userID action) c =
                  Some {| value := ll2string n; expireAt := ea |} /\
                minInt64 <= n < maxInt64) ->
  incrementUsage now c userID action = (delete (usageKey userID action) c, None).
Proof.
  intros Hlast Hstate. pose proof (formatSec_last_second _ Hlast) as Hzero.
  unfold incrementUsage.
  destruct Hstate as [Hf|(n & ea & Hf & Hn)].
  - rewrite (Incr_absent _ _ _ Hf). unfold Expire.
    erewrite find_live; [|apply lookup_insert_eq|reflexivity].
    rewrite Hzero. destruct (Z.leb_spec (mstime now + 0 * 1000) (mstime now)); [|lia].
    by rewrite delete_insert_eq.
  - rewrite (Incr_counter _ _ _ _ _ Hf Hn).
    pose proof (find_Some_live _ _ _ _ Hf) as Hlive.
    unfold Expire.
    erewrite (find_live now _ _ {| value := ll2string (n + 1); expireAt := ea |});
      [|apply lookup_insert_eq|exact Hlive].
    rewrite Hzero. destruct (Z.leb_spec (mstime now + 0 * 1000) (mstime now)); [|lia].
    by rewrite delete_insert_eq.
Qed.

(** C3, as the code has it. Away from the last second of the day, every
    [incrementUsage] adds one to the counter (creating it at 1) and then
    sets the key's expiry anew, to the whole seconds left until 23:59:59,
    on a key that existed before as on a new one. *)
Theorem incrementUsage_resets_expiry now (c : gmap string Entry) userID action :
  now mod Day <= 86398 * Second ->
  (find now (usageKey userID action) c = None ->
   incrementUsage now c userID action =
     (<[usageKey userID action :=
          {| value := "1"; expireAt := Some (usageExpiry now) |}]> c, None)) /\
  (forall n ea,
     find now (usageKey userID action) c = Some {| value := ll2string n; expireAt := ea |} ->
     minInt64 <= n < maxInt64 ->
     incrementUsage now c userID action =
       (<[usageKey userID action :=
            {| value := ll2string (n + 1); expireAt := Some (usageExpiry now) |}]> c, None)) /\
  mstime now < usageExpiry now /\
  mstime (endOfDay now) - 1000 <= usageExpiry now <= mstime (endOfDay now).
Proof.
  intros Hday. split; [|split; [|split; [|split]]].
  - intros Hf. by apply incrementUsage_absent.
  - intros n ea Hf Hn. by eapply incrementUsage_counter.
  - apply usageExpiry_day, Hday.
  - apply usageExpiry_day, Hday.
  - destruct (usageExpiry_day _ Hday) as (Heq & _ & _). rewrite Heq.
    revert Hday.
    unfold endOfDay, mstime, Day, Hour, Minute, Second, Millisecond. intros Hday.
    change (24 * (60 * (60 * 1000000000))) with 86400000000000 in *.
    pose proof (Z.div_mod now 86400000000000).
    pose proof (Z.mod_pos_bound now 86400000000000).
    set (m := now mod 86400000000000) in *.
    set (d := now - m + 86399 * 1000000000 - now).
    pose proof (Z.div_mod d 1000000000). pose proof (Z.mod_pos_bound d 1000000000).
    pose proof (Z.div_mod now 1000000). pose proof (Z.mod_pos_bound now 1000000).
    pose proof (Z.div_mod (now - m + 86399 * 1000000000) 1000000).
    pose proof (Z.mod_pos_bound (now - m + 86399 * 1000000000) 1000000).
    unfold d in *. lia.
Qed.

Lemma incrementUsage_resets_expiry_witness :
  (10 * Hour) mod Day <= 86398 * Second /\
  incrementUsage (10 * Hour) ∅ "7c9e6679-7425-40de-944b-e07fc1f90ae7" "view" =
    (<[usageKey "7c9e6679-7425-40de-944b-e07fc1f90ae7" "view" :=
         {| value := "1"; expireAt := Some (usageExpiry (10 * Hour)) |}]> ∅, None).
Proof.
  assert (Hday : (10 * Hour) mod Day <= 86398 * Second) by (vm_compute; discriminate).
  split; [exact Hday|].
  apply (proj1 (incrementUsage_resets_expiry (10 * Hour) ∅ "7c9e6679-7425-40de-944b-e07fc1f90ae7" "view" Hday)).
  reflexivity.
Defined.

(** C3 as written fails: the counter created half a second past 10:00:00
    expires at 23:59:58.500; an increment half a second later, on the key
    that now exists, moves its expiry to 23:59:59.000, so the time the key
    has left changes from 50397500 ms to 50398000 ms. *)
Lemma incrementUsage_changes_existing_ttl :
  Get (10 * Hour + Second) (usageKey "7c9e6679-7425-40de-944b-e07fc1f90ae7" "view")
    (incrementAll [10 * Hour + 500 * Millisecond] ∅ "7c9e6679-7425-40de-944b-e07fc1f90ae7" "view") = Ok "1" /\
  TTL (10 * Hour + Second) (usageKey "7c9e6679-7425-40de-944b-e07fc1f90ae7" "view")
    (incrementAll [10 * Hour + 500 * Millisecond] ∅ "7c9e6679-7425-40de-944b-e07fc1f90ae7" "view") = Some 50397500 /\
  TTL (10 * Hour + Second) (usageKey "7c9e6679-7425-40de-944b-e07fc1f90ae7" "view")
    (incrementAll [10 * Hour + 500 * Millisecond; 10 * Hour + Second] ∅ "7c9e6679-7425-40de-944b-e07fc1f90ae7" "view")
    = Some 50398000.
Proof. repeat split; vm_compute; reflexivity. Qed.

End UsageProofs.

(** ** The decision engine *)

Module PaywallProofs.
Import GoInt GoTime Strconv Cache Paywall DecimalFacts CacheFacts.
Import RateLimitProofs UsageProofs.

Lemma newest_In rows r : Subscription.newest rows = Some r -> In r rows.
Proof.
  unfold Subscription.newest.
  assert (Hgen : forall best,
             foldl (fun best r =>
                      match best with
                      | None => Some r
                      | Some b => if Subscription.before b r then Some r else Some b
                      end) best rows = Some r ->
             best = Some r \/ In r rows).
  { induction rows as [|x rows IH]; intros best Hfold; cbn in Hfold; [by left|].
    apply IH in Hfold as [Hbest|Hin]; [|right; by right].
    destruct best as [b|].
    - destruct (Subscription.before b x); [|by left]. injection Hbest as ->. right; by left.
    - injection Hbest as ->. right; by left. }
  intros Hfold. by destruct (Hgen None Hfold).
Qed.

(** [Scan] copies the columns that cannot be NULL. *)
Lemma scan_Ok r sub :
  DB.scan r = Ok sub ->
  DB.ID sub = DB.sub_id r /\ DB.UserID sub = DB.sub_user_id r /\
  DB.PlanID sub = DB.sub_plan_id r /\ DB.Status sub = DB.sub_status r /\
  DB.StartDate sub = DB.sub_start_date r /\ DB.EndDate sub = DB.sub_end_date r /\
  DB.sub_created_at r = Some (DB.CreatedAt sub).
Proof.
  unfold DB.scan.
  destruct (DB.sub_auto_renew r), (DB.sub_payment_method r), (DB.sub_currency r),
    (DB.sub_created_at r), (DB.sub_updated_at r); try done.
  by intros [= <-].
Qed.

(** The row behind a subscription the lookup returns. *)
Lemma lookup_Ok now db userID sub :
  Subscription.GetActiveSubscriptionByUserID now db userID = Ok sub ->
  exists u r,
    Postgres.uuid_in userID = Some u /\
    Subscription.newest (List.filter (Subscription.selected now u) (DB.subscriptions db))
      = Some r /\
    DB.scan r = Ok sub.
Proof.
  unfold Subscription.GetActiveSubscriptionByUserID.
  destruct (DB.available db); [|done].
  destruct (Subscription.hasColumns _ _); [|done].
  destruct (Postgres.uuid_in userID) as [u|]; [|done].
  destruct (Subscription.newest _) as [r|] eqn:Hnew; [|done].
  intros Hscan. by exists u, r.
Qed.

(** A subscription the lookup returns is active and not yet over. *)
Lemma lookup_selected now db userID sub :
  Subscription.GetActiveSubscriptionByUserID now db userID = Ok sub ->
  DB.Status sub = "active" /\ now < DB.EndDate sub.
Proof.
  intros Hlookup. apply lookup_Ok in Hlookup as (u & r & _ & Hnew & Hscan).
  apply newest_In, filter_In in Hnew as [_ Hsel].
  apply scan_Ok in Hscan as (_ & _ & _ & -> & _ & -> & _).
  unfold Subscription.selected in Hsel.
  apply andb_prop in Hsel as [Hsel Hend]. apply andb_prop in Hsel as [_ Hst].
  apply String.eqb_eq in Hst. apply Z.ltb_lt in Hend. done.
Qed.

Lemma checkSubscriptionAccess_ok now s userID sub :
  Subscription.GetActiveSubscriptionByUserID now (subscriptionSvc s) userID = Ok sub ->
  checkSubscriptionAccess now s userID "" = (true, "Valid subscription", DB.EndDate sub, None).
Proof.
  intros Hlookup. destruct (lookup_selected _ _ _ _ Hlookup) as [Hst Hend].
  unfold checkSubscriptionAccess. rewrite Hlookup, Hst. cbn.
  unfold After. by destruct (Z.ltb_spec (DB.EndDate sub) now); [lia|].
Qed.

(** The subscription check reads the relational store only. *)
Lemma checkSubscriptionAccess_cache now c c' db userID planID :
  checkSubscriptionAccess now {| cache := c; subscriptionSvc := db |} userID planID =
  checkSubscriptionAccess now {| cache := c'; subscriptionSvc := db |} userID planID.
Proof. reflexivity. Qed.

(** A call the limiter refuses. *)
Lemma EnforcePaywall_limited now s req :
  snd (checkRateLimit now (cache s) (UserID req) (Action req)) = false ->
  snd (EnforcePaywall now s (Ok req)) = rateLimitedResponse.
Proof.
  intros Hrl. unfold EnforcePaywall.
  destruct (checkRateLimit _ _ _ _) as [c1 ok]. cbn in Hrl. by subst ok.
Qed.

(** A call the limiter admits for a subscriber whose counter is absent. *)
Lemma EnforcePaywall_first now s req c1 sub :
  checkRateLimit now (cache s) (UserID req) (Action req) = (c1, true) ->
  Subscription.GetActiveSubscriptionByUserID now (subscriptionSvc s) (UserID req) = Ok sub ->
  find now (usageKey (UserID req) (Action req)) c1 = None ->
  now mod Day <= 86398 * Second ->
  EnforcePaywall now s (Ok req) =
    ({| cache := <[usageKey (UserID req) (Action req) :=
                     {| value := "1"; expireAt := Some (usageExpiry now) |}]> c1;
        subscriptionSvc := subscriptionSvc s |},
     allowedResponse (DB.EndDate sub) 0).
Proof.
  intros Hrl Hlookup Hf Hday. unfold EnforcePaywall. rewrite Hrl. cbn [negb].
  rewrite (checkSubscriptionAccess_ok now _ _ sub) by exact Hlookup. cbn [negb].
  rewrite (checkUsageLimits_absent _ _ _ _ Hf).
  by rewrite (incrementUsage_absent _ _ _ _ Hf Hday).
Qed.

(** A call the limiter admits for a subscriber whose counter reads [n]:
    the snapshot shows [n], and the counter goes to [n + 1]. *)
Lemma EnforcePaywall_allowed now s req c1 sub n ea :
  checkRateLimit now (cache s) (UserID req) (Action req) = (c1, true) ->
  Subscription.GetActiveSubscriptionByUserID now (subscriptionSvc s) (UserID req) = Ok sub ->
  find now (usageKey (UserID req) (Action req)) c1 =
    Some {| value := ll2string n; expireAt := ea |} ->
  0 <= n < maxInt64 ->
  now mod Day <= 86398 * Second ->
  EnforcePaywall now s (Ok req) =
    ({| cache := <[usageKey (UserID req) (Action req) :=
                     {| value := ll2string (n + 1); expireAt := Some (usageExpiry now) |}]> c1;
        subscriptionSvc := subscriptionSvc s |},
     allowedResponse (DB.EndDate sub) n).
Proof.
  intros Hrl Hlookup Hf Hn Hday. unfold EnforcePaywall. rewrite Hrl. cbn [negb].
  rewrite (checkSubscriptionAccess_ok now _ _ sub) by exact Hlookup. cbn [negb].
  rewrite (checkUsageLimits_counter _ _ _ _ _ _ Hf) by lia.
  by rewrite (incrementUsage_counter _ _ _ _ _ _ Hf) by (unfold minInt64; lia).
Qed.

Lemma find_insert_ne now key key' e (c : gmap string Entry) :
  key <> key' -> find now key' (<[key := e]> c) = find now key' c.
Proof. intros Hne. unfold find. by rewrite lookup_insert_ne. Qed.

(** Allowed calls inside the window and the day, below the limit. *)
Lemma enforceAll_below t1 req sub db (ts : list Time) :
  forall (c : gmap string Entry) k,
  countersAt t1 (UserID req) (Action req) k c ->
  1 <= k -> k + Z.of_nat (length ts) <= 10 ->
  Forall (fun t => t < t1 + Minute) ts ->
  Forall (fun t => sameDay t1 t /\
                   Subscription.GetActiveSubscriptionByUserID t db (UserID req) = Ok sub) ts ->
  exists c',
    enforceAll ts {| cache := c; subscriptionSvc := db |} req =
      ({| cache := c'; subscriptionSvc := db |},
       allowedResponses (DB.EndDate sub) k (length ts)) /\
    countersAt t1 (UserID req) (Action req) (k + Z.of_nat (length ts)) c'.
Proof.
  induction ts as [|t ts IH]; intros c k Hc Hk Hlen Hwin Hday.
  - exists c. cbn. by rewrite Z.add_0_r.
  - cbn [length] in Hlen.
    inversion Hwin as [|? ? Ht Hwin']; subst.
    inversion Hday as [|? ? [Hsame Hlookup] Hday']; subst.
    destruct Hc as (Hrate & when & Huse & Hwhen).
    destruct (sameDay_endOfDay _ _ Hsame) as [Hend Hms].
    pose proof (mstime_window _ _ Ht) as Hlive.
    pose proof (checkRateLimit_below t c _ _ _ _ Hrate Hlive
                  ltac:(unfold minInt64; lia)) as Hrl.
    set (c1 := <[rateLimitKey (UserID req) (Action req) :=
                   {| value := ll2string (k + 1);
                      expireAt := Some (mstime t1 + 60000) |}]> c) in *.
    assert (Hfind : find t (usageKey (UserID req) (Action req)) c1 =
                      Some {| value := ll2string k; expireAt := Some when |}).
    { unfold c1. rewrite find_insert_ne by apply keys_differ.
      apply find_live; [exact Huse|]. apply expired_false. lia. }
    pose proof (EnforcePaywall_allowed t {| cache := c; subscriptionSvc := db |}
                  req c1 sub k (Some when) Hrl Hlookup Hfind
                  ltac:(unfold maxInt64; lia) (proj2 Hsame)) as Hstep.
    cbn [enforceAll]. rewrite Hstep. cbn [subscriptionSvc].
    destruct (IH (<[usageKey (UserID req) (Action req) :=
                      {| value := ll2string (k + 1);
                         expireAt := Some (usageExpiry t) |}]> c1) (k + 1))
      as (c' & Hrun & Hc'); try lia; try assumption.
    { split.
      - unfold counterAt, c1. rewrite lookup_insert_ne by (apply not_eq_sym, keys_differ).
        apply lookup_insert_eq.
      - exists (usageExpiry t). split; [apply lookup_insert_eq|].
        destruct (usageExpiry_day t (proj2 Hsame)) as (_ & _ & Hge).
        rewrite Hend in Hge. exact Hge. }
    exists c'. rewrite Hrun. cbn [allowedResponses length]. split; [done|].
    by replace (k + Z.of_nat (S (length ts))) with (k + 1 + Z.of_nat (length ts)) by lia.
Qed.

(** C1, as the code has it. For a subscriber with no live counters, ten
    calls for one action inside one window (and before the last second of
    the day) are allowed, and the snapshot of the i-th call shows the usage
    before that call is counted: current 0, 1, ..., 9 and remaining 100,
    99, ..., 91. The eleventh call inside the window is refused with
    status 429 and touches nothing, whatever quota remains. *)
Theorem enforce_window s req sub (t1 : Time) (ts : list Time) (t11 : Time) :
  find t1 (rateLimitKey (UserID req) (Action req)) (cache s) = None ->
  find t1 (usageKey (UserID req) (Action req)) (cache s) = None ->
  length ts = 9%nat ->
  Forall (fun t => t < t1 + Minute) (ts ++ [t11]) ->
  Forall (fun t => sameDay t1 t /\
                   Subscription.GetActiveSubscriptionByUserID
                     t (subscriptionSvc s) (UserID req) = Ok sub) (t1 :: ts) ->
  exists s10,
    enforceAll (t1 :: ts) s req = (s10, allowedResponses (DB.EndDate sub) 0 10) /\
    EnforcePaywall t11 s10 (Ok req) = (s10, rateLimitedResponse).
Proof.
  destruct s as [c db]. cbn [cache subscriptionSvc].
  intros Hrate Huse Hlen Hwin Hday.
  apply Forall_app in Hwin as [Hwin Ht11]. inversion Ht11 as [|? ? Ht11' _]; subst.
  inversion Hday as [|? ? [Hsame Hlookup] Hday']; subst.
  pose proof (checkRateLimit_fresh _ _ _ _ Hrate) as Hrl.
  set (c1 := <[rateLimitKey (UserID req) (Action req) :=
                 {| value := "1"; expireAt := Some (mstime t1 + 60000) |}]> c) in *.
  assert (Hfind : find t1 (usageKey (UserID req) (Action req)) c1 = None).
  { unfold c1. by rewrite find_insert_ne by apply keys_differ. }
  pose proof (EnforcePaywall_first t1 {| cache := c; subscriptionSvc := db |}
                req c1 sub Hrl Hlookup Hfind (proj2 Hsame)) as Hstep.
  cbn [enforceAll]. rewrite Hstep. cbn [subscriptionSvc].
  destruct (enforceAll_below t1 req sub db ts
              (<[usageKey (UserID req) (Action req) :=
                   {| value := "1"; expireAt := Some (usageExpiry t1) |}]> c1) 1)
    as (c10 & Hrun & Hrate10 & _); try lia; try assumption.
  { split.
    - unfold counterAt, c1. rewrite lookup_insert_ne by (apply not_eq_sym, keys_differ).
      apply lookup_insert_eq.
    - exists (usageExpiry t1). split; [apply lookup_insert_eq|].
      apply usageExpiry_day, Hsame. }
  exists {| cache := c10; subscriptionSvc := db |}.
  rewrite Hrun, Hlen. split; [done|].
  rewrite Hlen in Hrate10.
  unfold EnforcePaywall. cbn [cache subscriptionSvc].
  rewrite (checkRateLimit_full t11 c10 _ _ _ _ Hrate10 (mstime_window _ _ Ht11'))
    by (unfold maxInt64; lia).
  done.
Qed.

Lemma enforce_window_witness :
  length (tail (Scenario.every Second 10)) = 9%nat /\
  exists s10,
    enforceAll (Scenario.every Second 10) Scenario.svc1 Scenario.view =
      (s10, allowedResponses (10 * Minute) 0 10) /\
    EnforcePaywall (10 * Second) s10 (Ok Scenario.view) = (s10, rateLimitedResponse).
Proof.
  split; [reflexivity|].
  apply (enforce_window Scenario.svc1 Scenario.view Scenario.sub1 0
           (tail (Scenario.every Second 10)) (10 * Second)).
  - reflexivity.
  - reflexivity.
  - reflexivity.
  - repeat constructor; vm_compute; reflexivity.
  - repeat constructor; vm_compute; try reflexivity; discriminate.
Defined.

(** C1 as written fails on the snapshot: the five calls of the scenario
    are allowed, but they show current 0, 1, 2, 3, 4 and remaining 100,
    99, 98, 97, 96, the reading taken before the call is counted. *)
Lemma enforce_snapshot_precedes_increment :
  map status (snd (enforceAll (Scenario.every Second 5) Scenario.svc1 Scenario.view))
    = [200; 200; 200; 200; 200] /\
  map usageOf (snd (enforceAll (Scenario.every Second 5) Scenario.svc1 Scenario.view))
    = [Some {| Current := 0; Limit := 100; Remaining := 100 |};
       Some {| Current := 1; Limit := 100; Remaining := 99 |};
       Some {| Current := 2; Limit := 100; Remaining := 98 |};
       Some {| Current := 3; Limit := 100; Remaining := 97 |};
       Some {| Current := 4; Limit := 100; Remaining := 96 |}].
Proof. split; vm_compute; reflexivity. Qed.

(** ** Denials *)

Lemma EnforcePaywall_forbidden now s req reason expiresAt err :
  snd (checkRateLimit now (cache s) (UserID req) (Action req)) = true ->
  checkSubscriptionAccess now s (UserID req) "" = (false, reason, expiresAt, err) ->
  snd (EnforcePaywall now s (Ok req)) =
    {| status := StatusForbidden; body := DeniedBody "Access denied" reason |}.
Proof.
  intros Hrl Hsub. unfold EnforcePaywall.
  destruct (checkRateLimit _ _ _ _) as [c1 ok]. cbn in Hrl. subst ok. cbn [negb].
  destruct s as [c db].
  rewrite (checkSubscriptionAccess_cache now c1 c db). rewrite Hsub.
  assert (err = None) as ->.
  { revert Hsub. unfold checkSubscriptionAccess.
    repeat case_match; intros Heq; congruence. }
  done.
Qed.

Lemma checkSubscriptionAccess_error now s userID planID :
  snd (checkSubscriptionAccess now s userID planID) = None.
Proof. unfold checkSubscriptionAccess. by repeat case_match. Qed.

Lemma EnforcePaywall_status now s bound :
  status (snd (EnforcePaywall now s bound)) <> StatusInternalServerError /\
  forall resp, body (snd (EnforcePaywall now s bound)) = EnforceBody resp ->
               status (snd (EnforcePaywall now s bound)) = StatusOK /\ Allowed resp = true.
Proof.
  unfold EnforcePaywall. destruct bound as [req|msg]; [|by split].
  destruct (checkRateLimit _ _ _ _) as [c1 ok]. destruct ok; cbn [negb]; [|by split].
  pose proof (checkSubscriptionAccess_error now
                {| cache := c1; subscriptionSvc := subscriptionSvc s |} (UserID req) "") as Herr.
  destruct (checkSubscriptionAccess _ _ _ _) as [[[hasAccess reason] expiresAt] err].
  cbn in Herr. subst err. destruct hasAccess; cbn [negb]; [|by split].
  assert (Husage : snd (checkUsageLimits now c1 (UserID req) (Action req)) = None).
  { unfold checkUsageLimits. by repeat case_match. }
  destruct (checkUsageLimits _ _ _ _) as [usage uerr]. cbn in Husage. subst uerr.
  cbn. split; [done|]. by intros resp [= <-].
Qed.

(** C4, as the code has it. A call the rate limiter refuses is answered
    with status 429 and the error text, a call whose subscription check
    fails with status 403, the error text and the reason; no call is
    answered with status 500, and a verdict body is only ever sent with
    status 200 and [allowed = true]. *)
Theorem enforce_denials_are_error_statuses now s req :
  (snd (checkRateLimit now (cache s) (UserID req) (Action req)) = false ->
   snd (EnforcePaywall now s (Ok req)) = rateLimitedResponse) /\
  (forall reason expiresAt err,
     snd (checkRateLimit now (cache s) (UserID req) (Action req)) = true ->
     checkSubscriptionAccess now s (UserID req) "" = (false, reason, expiresAt, err) ->
     snd (EnforcePaywall now s (Ok req)) =
       {| status := StatusForbidden; body := DeniedBody "Access denied" reason |}) /\
  status (snd (EnforcePaywall now s (Ok req))) <> StatusInternalServerError /\
  (forall resp,
     body (snd (EnforcePaywall now s (Ok req))) = EnforceBody resp ->
     status (snd (EnforcePaywall now s (Ok req))) = StatusOK /\ Allowed resp = true).
Proof.
  split; [apply EnforcePaywall_limited|].
  split; [intros; by eapply EnforcePaywall_forbidden|].
  apply EnforcePaywall_status.
Qed.

Lemma enforce_denials_are_error_statuses_witness :
  snd (EnforcePaywall 0 Scenario.svcNoSubscription (Ok Scenario.view)) =
    {| status := StatusForbidden;
       body := DeniedBody "Access denied" "No active subscription found" |}.
Proof.
  apply (proj1 (proj2 (enforce_denials_are_error_statuses
                         0 Scenario.svcNoSubscription Scenario.view))
           "No active subscription found" zeroTime None); reflexivity.
Defined.

(** C4 as written fails: without a subscription the answer is status 403
    with an error body, and past the rate limit it is status 429 with an
    error body; neither is a successful response with a verdict. *)
Lemma enforce_denial_is_not_a_verdict :
  snd (EnforcePaywall 0 Scenario.svcNoSubscription (Ok Scenario.view)) =
    {| status := 403; body := DeniedBody "Access denied" "No active subscription found" |} /\
  snd (EnforcePaywall (10 * Second)
         (fst (enforceAll (Scenario.every Second 10) Scenario.svc1 Scenario.view))
         (Ok Scenario.view)) =
    {| status := 429; body := ErrorBody "Rate limit exceeded" |}.
Proof. split; vm_compute; reflexivity. Qed.

(** ** The subscription check never reports an error *)

Lemma CheckAccess_status marshal unmarshal now s bound :
  status (snd (fst (CheckAccess marshal unmarshal now s bound))) <> StatusInternalServerError.
Proof.
  unfold CheckAccess. destruct bound as [req|msg]; [|done].
  destruct (getCachedAccess _ _ _ _); [done|].
  pose proof (checkSubscriptionAccess_error now s (CheckUserID req) (CheckPlanID req)) as Herr.
  destruct (checkSubscriptionAccess _ _ _ _) as [[[hasAccess reason] expiresAt] err].
  cbn in Herr. by subst err.
Qed.

(** C9. [checkSubscriptionAccess] returns a nil error on every path; any
    failure of the lookup, a store that cannot be reached like a subject
    without rows, gives the verdict "No active subscription found"; so
    [CheckAccess] never answers with status 500, and on an outage (with
    nothing cached) it answers 200 with that denial. *)
Theorem checkSubscriptionAccess_never_errors now s userID planID :
  snd (checkSubscriptionAccess now s userID planID) = None /\
  (forall e,
     Subscription.GetActiveSubscriptionByUserID now (subscriptionSvc s) userID = Err e ->
     checkSubscriptionAccess now s userID planID =
       (false, "No active subscription found", zeroTime, None)) /\
  (DB.available (subscriptionSvc s) = false ->
   Subscription.GetActiveSubscriptionByUserID now (subscriptionSvc s) userID = Err DB.ErrConn) /\
  (forall marshal unmarshal bound,
     status (snd (fst (CheckAccess marshal unmarshal now s bound)))
       <> StatusInternalServerError) /\
  (forall marshal unmarshal req,
     CheckUserID req = userID -> CheckPlanID req = planID ->
     DB.available (subscriptionSvc s) = false ->
     getCachedAccess unmarshal now (cache s) (accessKey req) = None ->
     snd (fst (CheckAccess marshal unmarshal now s (Ok req))) =
       {| status := StatusOK;
          body := CheckBody {| HasAccess := false;
                               CheckReason := "No active subscription found";
                               CheckExpiresAt := zeroTime |} |}).
Proof.
  assert (Hdown : DB.available (subscriptionSvc s) = false ->
            Subscription.GetActiveSubscriptionByUserID now (subscriptionSvc s) userID
              = Err DB.ErrConn).
  { intros Hav. unfold Subscription.GetActiveSubscriptionByUserID. by rewrite Hav. }
  assert (Herr : forall e,
            Subscription.GetActiveSubscriptionByUserID now (subscriptionSvc s) userID = Err e ->
            checkSubscriptionAccess now s userID planID =
              (false, "No active subscription found", zeroTime, None)).
  { intros e He. unfold checkSubscriptionAccess. by rewrite He. }
  split; [apply checkSubscriptionAccess_error|].
  split; [exact Herr|]. split; [exact Hdown|].
  split; [intros; apply CheckAccess_status|].
  intros marshal unmarshal req <- <- Hav Hmiss.
  unfold CheckAccess. rewrite Hmiss.
  by rewrite (Herr _ (Hdown Hav)).
Qed.

Lemma checkSubscriptionAccess_never_errors_witness :
  DB.available (subscriptionSvc Scenario.svcOutage) = false /\
  snd (fst (CheckAccess (fun _ => None) (fun _ => None) 0 Scenario.svcOutage
              (Ok Scenario.check))) =
    {| status := StatusOK;
       body := CheckBody {| HasAccess := false;
                            CheckReason := "No active subscription found";
                            CheckExpiresAt := zeroTime |} |}.
Proof.
  split; [reflexivity|].
  apply (proj2 (proj2 (proj2 (proj2
           (checkSubscriptionAccess_never_errors 0 Scenario.svcOutage "7c9e6679-7425-40de-944b-e07fc1f90ae7" "c56a4180-65aa-42ec-a945-5fd21dec0538"))))
           (fun _ => None) (fun _ => None) Scenario.check); reflexivity.
Defined.

(** ** The quota is reported, not enforced *)




End PaywallProofs.

(** ** The webhook handler *)

Module WebhookProofs.
Import GoTime Payment PaymentService.

Lemma unrecognized_eqb eventType :
  ~ recognized eventType ->
  String.eqb eventType "payment_intent.succeeded" = false /\
  String.eqb eventType "payment_intent.payment_failed" = false /\
  String.eqb eventType "invoice.payment_succeeded" = false.
Proof.
  unfold recognized. intros Hrec.
  repeat split; apply String.eqb_neq; intros ->; apply Hrec; auto.
Qed.

(** What the update does to each row. *)
Lemma markRow_spec now u r :
  DB.id (markRow now u r) = DB.id r /\
  DB.event_type (markRow now u r) = DB.event_type r /\
  DB.source (markRow now u r) = DB.source r /\
  DB.payload (markRow now u r) = DB.payload r /\
  DB.created_at (markRow now u r) = DB.created_at r /\
  (DB.id r = u ->
   DB.processed (markRow now u r) = true /\
   DB.processed_at (markRow now u r) = Some now) /\
  (DB.id r <> u -> markRow now u r = r).
Proof.
  unfold markRow. destruct (String.eqb_spec (DB.id r) u); cbn; naive_solver.
Qed.

(** What the update does to the store. *)
Lemma markWebhookProcessed_spec now db eventID :
  DB.available (fst (markWebhookProcessed now db eventID)) = DB.available db /\
  DB.subscription_columns (fst (markWebhookProcessed now db eventID))
    = DB.subscription_columns db /\
  DB.subscriptions (fst (markWebhookProcessed now db eventID)) = DB.subscriptions db /\
  Forall2 (fun r r' =>
             DB.id r' = DB.id r /\
             DB.event_type r' = DB.event_type r /\
             DB.source r' = DB.source r /\
             DB.payload r' = DB.payload r /\
             DB.created_at r' = DB.created_at r)
    (DB.webhook_events db)
    (DB.webhook_events (fst (markWebhookProcessed now db eventID))) /\
  (forall u,
     DB.available db = true -> Postgres.uuid_in eventID = Some u ->
     Forall2 (fun r r' =>
                (DB.id r = u ->
                 DB.processed r' = true /\ DB.processed_at r' = Some now) /\
                (DB.id r <> u -> r' = r))
       (DB.webhook_events db)
       (DB.webhook_events (fst (markWebhookProcessed now db eventID)))) /\
  (DB.available db = false \/ Postgres.uuid_in eventID = None ->
   fst (markWebhookProcessed now db eventID) = db).
Proof.
  unfold markWebhookProcessed.
  destruct (DB.available db) eqn:Hav; [destruct (Postgres.uuid_in eventID) as [u|] eqn:Hu|];
    cbn [fst DB.withWebhookEvents DB.available DB.subscription_columns DB.subscriptions
         DB.webhook_events].
  - split; [done|]. split; [done|]. split; [done|]. split; [|split].
    + induction (DB.webhook_events db) as [|r rows IH]; cbn [map]; constructor; [|exact IH].
      destruct (markRow_spec now u r) as (? & ? & ? & ? & ? & _). by repeat split.
    + intros u' _ [= <-].
      induction (DB.webhook_events db) as [|r rows IH]; cbn [map]; constructor; [|exact IH].
      destruct (markRow_spec now u r) as (_ & _ & _ & _ & _ & Hmark & Hother). by split.
    + intros [?|?]; done.
  - split; [done|]. split; [done|]. split; [done|]. split; [|split].
    + induction (DB.webhook_events db); by constructor.
    + intros u' _ ?; done.
    + done.
  - split; [done|]. split; [done|]. split; [done|]. split; [|split].
    + induction (DB.webhook_events db); by constructor.
    + intros u' ?; done.
    + done.
Qed.

(** C8. For an event of a type that none of the three reactions handles,
    the handler runs no reaction (its only log line is the "unhandled" one)
    and the only columns of the store that can differ afterwards are
    [processed] and [processed_at] of rows of [webhook_events]. With the
    store reachable and the event's id denoting the uuid [u], in any
    spelling, the rows of id [u] have [processed] true and [processed_at]
    the instant of the update, and every other row is as it was. The
    endpoint starts the handler only for an event it has stored, whose id
    therefore denotes a uuid and has a row. When the store cannot be reached
    or the id denotes no uuid, the update fails and the store is as it
    was. *)
Theorem unrecognized_event_only_marked now db event :
  ~ recognized (Type_ event) ->
  snd (processWebhookEvent now db event) = ["Unhandled webhook event type: " +:+ Type_ event] /\
  DB.available (fst (processWebhookEvent now db event)) = DB.available db /\
  DB.subscription_columns (fst (processWebhookEvent now db event))
    = DB.subscription_columns db /\
  DB.subscriptions (fst (processWebhookEvent now db event)) = DB.subscriptions db /\
  Forall2 (fun r r' =>
             DB.id r' = DB.id r /\
             DB.event_type r' = DB.event_type r /\
             DB.source r' = DB.source r /\
             DB.payload r' = DB.payload r /\
             DB.created_at r' = DB.created_at r)
    (DB.webhook_events db)
    (DB.webhook_events (fst (processWebhookEvent now db event))) /\
  (forall u,
     DB.available db = true -> Postgres.uuid_in (ID event) = Some u ->
     Forall2 (fun r r' =>
                (DB.id r = u ->
                 DB.processed r' = true /\ DB.processed_at r' = Some now) /\
                (DB.id r <> u -> r' = r))
       (DB.webhook_events db)
       (DB.webhook_events (fst (processWebhookEvent now db event)))) /\
  (DB.available db = false \/ Postgres.uuid_in (ID event) = None ->
   fst (processWebhookEvent now db event) = db) /\
  (forall json_Marshal columns_in t0 db0 signature resp task,
     HandleWebhook json_Marshal columns_in t0 db0 signature (Ok event) = (db, resp, Some task) ->
     task = event /\ DB.available db = true /\
     exists u r, Postgres.uuid_in (ID event) = Some u /\
                 In r (DB.webhook_events db) /\ DB.id r = u).
Proof.
  intros Hrec. destruct (unrecognized_eqb _ Hrec) as (H1 & H2 & H3).
  unfold processWebhookEvent. rewrite H1, H2, H3. cbn [fst snd].
  destruct (markWebhookProcessed_spec now db (ID event)) as (Hav & Hcol & Hsub & Hrows & Hmark & Hfail).
  split; [done|]. split; [done|]. split; [done|]. split; [done|]. split; [done|].
  split; [done|]. split; [intros Hcase; by apply Hfail|].
  intros json_Marshal columns_in t0 db0 signature resp task.
  unfold HandleWebhook, storeWebhookEvent. cbn [verifyWebhookSignature negb].
  destruct (DB.available db0) eqn:Hav0; cbn [negb]; [|done].
  destruct (Postgres.uuid_in (ID event)) as [u|]; [|done].
  destruct (columns_in _ _ _) as [[[t src] p]|]; [|done].
  destruct (existsb _ _); [done|].
  intros [= <- _ <-]. split; [done|]. split; [done|].
  eexists u, _. split; [done|]. cbn [DB.withWebhookEvents DB.webhook_events].
  split; [apply in_app_iff; right; left; reflexivity|done].
Qed.

Lemma unrecognized_event_only_marked_witness :
  ~ recognized (Type_ sampleEvent) /\
  snd (processWebhookEvent (2 * Second) sampleStore sampleEvent)
    = ["Unhandled webhook event type: customer.created"] /\
  Forall2 (fun r r' =>
             (DB.id r = "0b5cbd1e-7f3a-4c2d-9e1f-6a8b7c9d0e1f" ->
              DB.processed r' = true /\ DB.processed_at r' = Some (2 * Second)) /\
             (DB.id r <> "0b5cbd1e-7f3a-4c2d-9e1f-6a8b7c9d0e1f" -> r' = r))
    (DB.webhook_events sampleStore)
    (DB.webhook_events (fst (processWebhookEvent (2 * Second) sampleStore sampleEvent))).
Proof.
  assert (Hrec : ~ recognized (Type_ sampleEvent)).
  { unfold recognized; cbn. intros [H|[H|H]]; discriminate. }
  split; [exact Hrec|].
  split; [exact (proj1 (unrecognized_event_only_marked (2 * Second) sampleStore sampleEvent
                          Hrec))|].
  exact (proj1 (proj2 (proj2 (proj2 (proj2 (proj2
           (unrecognized_event_only_marked (2 * Second) sampleStore sampleEvent Hrec))))))
           "0b5cbd1e-7f3a-4c2d-9e1f-6a8b7c9d0e1f" eq_refl eq_refl).
Defined.

(** The stored row is marked although the delivery spells its id in upper
    case. *)
Example processWebhookEvent_sample :
  map (fun r => (DB.id r, DB.processed r, DB.processed_at r))
    (DB.webhook_events (fst (processWebhookEvent (2 * Second) sampleStore sampleEvent)))
    = [("0b5cbd1e-7f3a-4c2d-9e1f-6a8b7c9d0e1f", true, Some (2 * Second))].
Proof. vm_compute. reflexivity. Qed.

End WebhookProofs.

Module BreakerProofs.
Import GoInt GoTime Payment GoIntFacts.

Lemma recordFailures_snoc ts t cb :
  recordFailures (ts ++ [t]) cb = RecordFailure t (recordFailures ts cb).
Proof. unfold recordFailures. by rewrite foldl_app. Qed.

Lemma calls_snoc cs c cb : calls (cs ++ [c]) cb = call (calls cs cb) c.
Proof. unfold calls. by rewrite foldl_app. Qed.

(** The breaker after [n] failures in a row, as long as the counter has
    not wrapped. *)
Lemma recordFailures_shape cfg (ts : list Time) :
  Z.of_nat (length ts) <= maxInt64 ->
  recordFailures ts (NewCircuitBreaker cfg) =
    {| state := if (0 <? Z.of_nat (length ts)) && (FailureThreshold cfg <=? Z.of_nat (length ts))
                then Open else Closed;
       failureCount := Z.of_nat (length ts);
       lastFailureTime := List.last ts zeroTime;
       config := cfg |}.
Proof.
  induction ts as [|t ts IH] using rev_ind; intros Hlen; [reflexivity|].
  rewrite recordFailures_snoc, length_app in *. cbn [length] in *.
  rewrite IH by lia. unfold RecordFailure; cbn.
  rewrite wrap64_id by (unfold minInt64; lia).
  rewrite last_last.
  replace (Z.of_nat (length ts) + 1) with (Z.of_nat (length ts + 1)) by lia.
  f_equal.
  zcompare; cbn; try reflexivity; lia.
Qed.

(** C6. From the initial breaker, after any sequence of [RecordFailure]
    calls (short enough for the Go counter not to wrap) the counter equals
    the number of calls, the breaker is Open exactly when at least one call
    was made and the counter has reached the threshold, it is Closed
    otherwise, and the edge from Closed to Open is taken by the call that
    brings the counter to the threshold (to 1 for a threshold below 1). *)
Theorem recordFailure_opens_at_threshold cfg (ts : list Time) :
  Z.of_nat (length ts) < maxInt64 ->
  let cb := recordFailures ts (NewCircuitBreaker cfg) in
  failureCount cb = Z.of_nat (length ts) /\
  (state cb = Open <-> ts <> [] /\ FailureThreshold cfg <= failureCount cb) /\
  (state cb <> Open -> state cb = Closed) /\
  (forall t,
      state cb = Closed /\ state (RecordFailure t cb) = Open <->
      failureCount (RecordFailure t cb) = Z.max 1 (FailureThreshold cfg)).
Proof.
  intros Hlen cb.
  assert (Hcb : cb = recordFailures ts (NewCircuitBreaker cfg)) by reflexivity.
  rewrite recordFailures_shape in Hcb by lia.
  assert (Hnil : ts <> [] <-> 0 < Z.of_nat (length ts)).
  { destruct ts; cbn [length]; split; intros; try congruence; lia. }
  rewrite Hcb; cbn [state failureCount config].
  split; [reflexivity|]. split; [|split].
  - rewrite Hnil. split.
    + zcompare; cbn; intros; try lia; discriminate.
    + intros [? ?]. zcompare; cbn; try reflexivity; lia.
  - zcompare; cbn; intros; try reflexivity; congruence.
  - intros t. unfold RecordFailure; cbn.
    rewrite wrap64_id by (unfold minInt64; lia).
    split.
    + intros [H1 H2]; revert H1 H2.
      zcompare; cbn; intros; try discriminate; lia.
    + zcompare; cbn; intros; try (split; reflexivity); lia.
Qed.

Lemma recordFailure_opens_at_threshold_witness :
  Z.of_nat (length [1 * Second; 2 * Second; 3 * Second; 4 * Second]) < maxInt64 /\
  state (recordFailures [1 * Second; 2 * Second; 3 * Second; 4 * Second]
           (NewCircuitBreaker defaultConfig)) = Closed /\
  state (RecordFailure (5 * Second)
           (recordFailures [1 * Second; 2 * Second; 3 * Second; 4 * Second]
              (NewCircuitBreaker defaultConfig))) = Open.
Proof.
  split; [reflexivity|].
  apply (proj2 (proj2 (proj2 (recordFailure_opens_at_threshold defaultConfig
           [1 * Second; 2 * Second; 3 * Second; 4 * Second] eq_refl)))).
  reflexivity.
Defined.

(** ** The invariant of reachable breakers *)

Lemma breaker_inv_init cfg : breaker_inv cfg 0 (NewCircuitBreaker cfg).
Proof.
  unfold breaker_inv; cbn. repeat split; try lia.
  intros [H|H]; discriminate.
Qed.

Lemma breaker_inv_call cfg k cb c :
  1 <= FailureThreshold cfg -> k < maxInt64 ->
  breaker_inv cfg k cb -> breaker_inv cfg (k + 1) (call cb c).
Proof.
  intros Hthr Hk (Hcfg & Hcnt & Hopen).
  destruct c as [now| |now]; cbn [call].
  - unfold CanExecute. destruct (state cb) eqn:Hst; cbn [snd].
    + unfold breaker_inv. rewrite Hst. repeat split; try lia; assumption.
    + destruct (_ <? _); cbn [snd].
      * unfold breaker_inv; cbn. repeat split; try lia; try assumption.
        intros _. apply Hopen. by left.
      * unfold breaker_inv. rewrite Hst. repeat split; try lia; assumption.
    + unfold breaker_inv. rewrite Hst. repeat split; try lia; assumption.
  - unfold breaker_inv, RecordSuccess; cbn. repeat split; try lia; try assumption.
    intros [H|H]; discriminate.
  - unfold breaker_inv, RecordFailure; cbn.
    rewrite wrap64_id by (unfold minInt64; lia).
    rewrite Hcfg. repeat split; try lia.
    destruct (Z.leb_spec (FailureThreshold cfg) (failureCount cb + 1)); [lia|].
    intros H'. specialize (Hopen H'). lia.
Qed.

Lemma breaker_inv_calls cfg (cs : list Call) :
  1 <= FailureThreshold cfg -> Z.of_nat (length cs) <= maxInt64 ->
  breaker_inv cfg (Z.of_nat (length cs)) (calls cs (NewCircuitBreaker cfg)).
Proof.
  intros Hthr. induction cs as [|c cs IH] using rev_ind; intros Hlen.
  - apply breaker_inv_init.
  - rewrite calls_snoc, length_app in *. cbn [length] in *.
    replace (Z.of_nat (length cs + 1)) with (Z.of_nat (length cs) + 1) by lia.
    apply breaker_inv_call; [assumption|lia|]. apply IH. lia.
Qed.

(** C10. With a threshold of at least 1, every breaker reached from the
    initial one by [CanExecute], [RecordSuccess] and [RecordFailure] calls
    (fewer than the Go counter can count) has counted at least the
    threshold when it is Open or HalfOpen; hence one [RecordFailure] in
    HalfOpen re-opens it, and one [RecordSuccess] closes it with a counter
    of 0 from any state. *)
Theorem reachable_breaker_invariant cfg (cs : list Call) :
  1 <= FailureThreshold cfg ->
  Z.of_nat (length cs) < maxInt64 ->
  let cb := calls cs (NewCircuitBreaker cfg) in
  (state cb = Open \/ state cb = HalfOpen -> FailureThreshold cfg <= failureCount cb) /\
  (forall t, state cb = HalfOpen -> state (RecordFailure t cb) = Open) /\
  state (RecordSuccess cb) = Closed /\ failureCount (RecordSuccess cb) = 0.
Proof.
  intros Hthr Hlen cb.
  destruct (breaker_inv_calls cfg cs Hthr) as (Hcfg & Hcnt & Hopen); [lia|].
  fold cb in Hcfg, Hcnt, Hopen.
  split; [exact Hopen|]. split; [|split; reflexivity].
  intros t Hst. unfold RecordFailure; cbn.
  rewrite wrap64_id by (unfold minInt64; lia).
  rewrite Hcfg.
  destruct (Z.leb_spec (FailureThreshold cfg) (failureCount cb + 1)); [reflexivity|].
  assert (FailureThreshold cfg <= failureCount cb) by (apply Hopen; by right). lia.
Qed.

Lemma reachable_breaker_invariant_witness :
  1 <= FailureThreshold defaultConfig /\
  Z.of_nat (length trialFails) < maxInt64 /\
  state (calls trialFails (NewCircuitBreaker defaultConfig)) = HalfOpen /\
  state (RecordFailure (67 * Second)
           (calls trialFails (NewCircuitBreaker defaultConfig))) = Open.
Proof.
  split; [cbn; lia|]. split; [reflexivity|]. split; [reflexivity|].
  apply (proj1 (proj2 (reachable_breaker_invariant defaultConfig trialFails
                         ltac:(cbn; lia) eq_refl))).
  reflexivity.
Defined.

(** ** Recovery after the breaker opened *)

Lemma Since_gt (r : Duration) (now t : Time) :
  minInt64 <= r < maxInt64 -> (r <? Since now t) = (t + r <? now).
Proof.
  intros Hr. unfold Since, Sub, minInt64, maxInt64 in *.
  destruct (Z.ltb_spec 9223372036854775807 (now - t));
    [|destruct (Z.ltb_spec (now - t) (-9223372036854775808))];
    zcompare; try reflexivity; lia.
Qed.

Lemma recoveryDuration_exact cfg :
  -9223372036 <= RecoveryTimeout cfg <= 9223372036 ->
  recoveryDuration cfg = RecoveryTimeout cfg * Second /\
  minInt64 <= recoveryDuration cfg < maxInt64.
Proof.
  intros Hr. unfold recoveryDuration.
  rewrite wrap64_id; unfold minInt64, maxInt64, Second; lia.
Qed.

(** One call on an open breaker: refused up to and including the instant
    [lastFailureTime + RecoveryTimeout], let through strictly after it. *)
Lemma CanExecute_open now cb :
  state cb = Open ->
  -9223372036 <= RecoveryTimeout (config cb) <= 9223372036 ->
  CanExecute now cb =
    if lastFailureTime cb + RecoveryTimeout (config cb) * Second <? now
    then (true, {| state := HalfOpen; failureCount := failureCount cb;
                   lastFailureTime := lastFailureTime cb; config := config cb |})
    else (false, cb).
Proof.
  intros Hst Hr. unfold CanExecute. rewrite Hst.
  destruct (recoveryDuration_exact _ Hr) as [Heq Hrange].
  rewrite Since_gt by assumption. by rewrite Heq.
Qed.

Lemma canExecutes_refused (ts : list Time) cb :
  state cb = Open ->
  -9223372036 <= RecoveryTimeout (config cb) <= 9223372036 ->
  Forall (fun t => t <= lastFailureTime cb + RecoveryTimeout (config cb) * Second) ts ->
  canExecutes ts cb = (replicate (length ts) false, cb).
Proof.
  intros Hst Hr. induction 1 as [|t ts Ht _ IH]; [reflexivity|].
  cbn [canExecutes length replicate]. rewrite CanExecute_open by assumption.
  destruct (Z.ltb_spec (lastFailureTime cb + RecoveryTimeout (config cb) * Second) t); [lia|].
  by rewrite IH.
Qed.

Lemma canExecutes_app (ts us : list Time) cb :
  canExecutes (ts ++ us) cb =
    (fst (canExecutes ts cb) ++ fst (canExecutes us (snd (canExecutes ts cb))),
     snd (canExecutes us (snd (canExecutes ts cb)))).
Proof.
  revert cb. induction ts as [|t ts IH]; intros cb; cbn [canExecutes app fst snd].
  - by destruct (canExecutes us cb).
  - destruct (CanExecute t cb) as [b cb1]. rewrite IH.
    by destruct (canExecutes ts cb1), (canExecutes us _).
Qed.

(** C2, as the code has it. When a [RecordFailure] at [T] leaves the
    breaker Open, every later [CanExecute] at an instant up to and
    including [T + RecoveryTimeout] seconds is refused and changes nothing,
    and the first call strictly after that instant is let through and turns
    the breaker HalfOpen. *)
Theorem canExecute_after_open cb0 (T : Time) (ts : list Time) (t' : Time) :
  state (RecordFailure T cb0) = Open ->
  -9223372036 <= RecoveryTimeout (config cb0) <= 9223372036 ->
  Forall (fun t => t <= T + RecoveryTimeout (config cb0) * Second) ts ->
  T + RecoveryTimeout (config cb0) * Second < t' ->
  canExecutes (ts ++ [t']) (RecordFailure T cb0) =
    (replicate (length ts) false ++ [true],
     {| state := HalfOpen;
        failureCount := failureCount (RecordFailure T cb0);
        lastFailureTime := T;
        config := config cb0 |}).
Proof.
  intros Hst Hr Hts Ht'.
  rewrite canExecutes_app, canExecutes_refused by assumption.
  cbn [fst snd canExecutes]. rewrite CanExecute_open by assumption.
  cbn [lastFailureTime config RecordFailure].
  destruct (Z.ltb_spec (T + RecoveryTimeout (config cb0) * Second) t'); [reflexivity|lia].
Qed.

Lemma canExecute_after_open_witness :
  state (RecordFailure (5 * Second)
           (recordFailures [1 * Second; 2 * Second; 3 * Second; 4 * Second]
              (NewCircuitBreaker defaultConfig))) = Open /\
  fst (canExecutes ([6 * Second; 65 * Second] ++ [65 * Second + 1])
         (RecordFailure (5 * Second)
            (recordFailures [1 * Second; 2 * Second; 3 * Second; 4 * Second]
               (NewCircuitBreaker defaultConfig)))) = [false; false; true].
Proof.
  split; [reflexivity|].
  exact (f_equal fst
           (canExecute_after_open
              (recordFailures [1 * Second; 2 * Second; 3 * Second; 4 * Second]
                 (NewCircuitBreaker defaultConfig))
              (5 * Second) [6 * Second; 65 * Second] (65 * Second + 1)
              eq_refl
              ltac:(cbn; lia)
              ltac:(repeat constructor; cbn; unfold Second; lia)
              ltac:(cbn; unfold Second; lia))).
Defined.

(** C2 as it is written fails at the boundary: the breaker tripped at
    second 5 with a recovery time of 60 seconds refuses the call made at
    second 65 exactly. *)
Lemma canExecute_at_recovery_instant_refused :
  state tripped = Open /\
  lastFailureTime tripped = 5 * Second /\
  CanExecute (5 * Second + RecoveryTimeout (config tripped) * Second) tripped
    = (false, tripped).
Proof. repeat split. Qed.

End BreakerProofs.

(** ** The subscription lookup *)

Module LookupProofs.
Import GoInt GoTime Strconv Cache Paywall DecimalFacts CacheFacts PaywallProofs.

(** [before] is a strict order in which rows without a value come last. *)
Lemma before_trans a b c :
  Subscription.before a b = false -> Subscription.before b c = false ->
  Subscription.before a c = false.
Proof.
  unfold Subscription.before.
  destruct (DB.sub_created_at a), (DB.sub_created_at b), (DB.sub_created_at c);
    try done; rewrite !Z.ltb_ge; lia.
Qed.

Lemma before_asym a b :
  Subscription.before a b = true -> Subscription.before b a = false.
Proof.
  unfold Subscription.before.
  destruct (DB.sub_created_at a), (DB.sub_created_at b); try done.
  rewrite Z.ltb_lt, Z.ltb_ge. lia.
Qed.

Lemma before_irrefl a : Subscription.before a a = false.
Proof.
  unfold Subscription.before. destruct (DB.sub_created_at a); [|done].
  apply Z.ltb_irrefl.
Qed.

Lemma newest_step best (rows : list DB.SubscriptionRow) r :
  foldl (fun best r =>
           match best with
           | None => Some r
           | Some b => if Subscription.before b r then Some r else Some b
           end) best rows = Some r ->
  (forall b, best = Some b -> Subscription.before r b = false) /\
  (forall x, In x rows -> Subscription.before r x = false).
Proof.
  revert best. induction rows as [|x rows IH]; intros best Hfold; cbn in Hfold.
  - split; [|intros ? []]. intros b ->. injection Hfold as ->. apply before_irrefl.
  - apply IH in Hfold as [Hbest Hrows]. split.
    + intros b ->. destruct (Subscription.before b x) eqn:Hbx.
      * eapply before_trans; [exact (Hbest x eq_refl)|by apply before_asym].
      * exact (Hbest b eq_refl).
    + intros y [->|Hy]; [|by apply Hrows].
      destruct best as [b|]; [|exact (Hbest y eq_refl)].
      destruct (Subscription.before b y) eqn:Hby.
      * exact (Hbest y eq_refl).
      * eapply before_trans; [exact (Hbest b eq_refl)|exact Hby].
Qed.

Lemma newest_None (rows : list DB.SubscriptionRow) :
  Subscription.newest rows = None -> rows = [].
Proof.
  unfold Subscription.newest. destruct rows as [|x rows]; [done|]. cbn.
  intros Hfold. exfalso. revert x Hfold.
  induction rows as [|y rows IH]; intros b; cbn; [done|].
  destruct (Subscription.before b y); apply IH.
Qed.

Lemma selected_spec now u r :
  Subscription.selected now u r = true <->
  DB.sub_user_id r = u /\ DB.sub_status r = "active" /\ now < DB.sub_end_date r.
Proof.
  unfold Subscription.selected.
  rewrite !andb_true_iff, !String.eqb_eq, Z.ltb_lt. tauto.
Qed.

Lemma scan_Err r e : DB.scan r = Err e -> e = DB.ErrScan.
Proof.
  unfold DB.scan.
  destruct (DB.sub_auto_renew r), (DB.sub_payment_method r), (DB.sub_currency r),
    (DB.sub_created_at r), (DB.sub_updated_at r); try done; by intros [= <-].
Qed.

(** X1. What the lookup returns, outcome by outcome. A connection error
    means the store cannot be reached. On a store that can be reached, the
    statement is rejected when the table lacks a column the [SELECT] names
    or when the user id denotes no uuid. Otherwise the rows of the user (of
    the uuid that the id denotes) with status "active" and an end date
    after the instant of the query are considered: without such a row the
    answer is "no rows"; else the row first in the order by [created_at]
    descending (no such row comes before it) is scanned, which fails when
    one of its nullable columns holds no value and else gives the
    subscription returned. *)
Theorem lookup_outcome now db userID :
  match Subscription.GetActiveSubscriptionByUserID now db userID with
  | Ok sub =>
      DB.available db = true /\
      Subscription.hasColumns db Subscription.selectColumns = true /\
      exists u r,
        Postgres.uuid_in userID = Some u /\ In r (DB.subscriptions db) /\
        DB.scan r = Ok sub /\
        DB.UserID sub = u /\ DB.Status sub = "active" /\ now < DB.EndDate sub /\
        forall x, In x (DB.subscriptions db) ->
                  DB.sub_user_id x = u -> DB.sub_status x = "active" ->
                  now < DB.sub_end_date x ->
                  Subscription.before r x = false
  | Err DB.ErrNoRows =>
      DB.available db = true /\
      Subscription.hasColumns db Subscription.selectColumns = true /\
      exists u,
        Postgres.uuid_in userID = Some u /\
        forall x, In x (DB.subscriptions db) ->
                  ~ (DB.sub_user_id x = u /\ DB.sub_status x = "active" /\
                     now < DB.sub_end_date x)
  | Err DB.ErrConn => DB.available db = false
  | Err DB.ErrStatement =>
      DB.available db = true /\
      (Subscription.hasColumns db Subscription.selectColumns = false \/
       Postgres.uuid_in userID = None)
  | Err DB.ErrScan =>
      DB.available db = true /\
      Subscription.hasColumns db Subscription.selectColumns = true /\
      exists u r,
        Postgres.uuid_in userID = Some u /\ In r (DB.subscriptions db) /\
        Subscription.selected now u r = true /\
        DB.scan r = Err DB.ErrScan /\
        forall x, In x (DB.subscriptions db) ->
                  Subscription.selected now u x = true ->
                  Subscription.before r x = false
  end.
Proof.
  unfold Subscription.GetActiveSubscriptionByUserID.
  destruct (DB.available db); [|done].
  destruct (Subscription.hasColumns db _); [|by split; [|left]].
  destruct (Postgres.uuid_in userID) as [u|]; [|by split; [|right]].
  destruct (Subscription.newest _) as [r|] eqn:Hnew.
  - pose proof (newest_In _ _ Hnew) as Hin. apply filter_In in Hin as [Hin Hsel].
    assert (Hfirst : forall x, In x (DB.subscriptions db) ->
                       Subscription.selected now u x = true ->
                       Subscription.before r x = false).
    { intros x Hx Hselx. apply (proj2 (newest_step None _ _ Hnew)).
      apply filter_In. by split. }
    destruct (DB.scan r) as [sub|e] eqn:Hscan.
    + split; [done|]. split; [done|]. exists u, r.
      apply selected_spec in Hsel as (Hu & Hs & He).
      destruct (scan_Ok _ _ Hscan) as (_ & -> & _ & -> & _ & -> & _).
      repeat split; try done.
      intros x Hx Hxu Hxs Hxe. apply Hfirst; [done|]. by apply selected_spec.
    + apply scan_Err in Hscan as Heq. subst e.
      split; [done|]. split; [done|]. by exists u, r.
  - split; [done|]. split; [done|]. exists u. split; [done|].
    intros x Hx Hsel. apply newest_None in Hnew.
    assert (Hf : In x (List.filter (Subscription.selected now u) (DB.subscriptions db))).
    { apply filter_In. split; [done|]. by apply selected_spec. }
    rewrite Hnew in Hf. destruct Hf.
Qed.

(** X2. What the subscription check grants. Access is granted only on a
    subscription the lookup returned, whose plan is the requested one when a
    plan is requested, and the verdict then carries that subscription's end
    date, which lies after the instant of the check; a refusal carries the
    zero time and is never worded "Subscription is not active", the lookup
    having kept active rows only. *)
Theorem access_granted_only_on_active now s userID planID :
  match checkSubscriptionAccess now s userID planID with
  | (true, reason, expiresAt, _) =>
      exists sub,
        Subscription.GetActiveSubscriptionByUserID now (subscriptionSvc s) userID = Ok sub /\
        (planID = "" \/ DB.PlanID sub = planID) /\
        expiresAt = DB.EndDate sub /\ now < expiresAt /\ reason = "Valid subscription"
  | (false, reason, expiresAt, _) =>
      expiresAt = zeroTime /\ reason <> "Subscription is not active"
  end.
Proof.
  unfold checkSubscriptionAccess.
  destruct (Subscription.GetActiveSubscriptionByUserID _ _ _) as [sub|e] eqn:Hlookup;
    [|by split].
  destruct (lookup_selected _ _ _ _ Hlookup) as [Hst Hend].
  rewrite Hst. cbn [String.eqb negb]. change (String.eqb "active" "active") with true.
  cbn [negb]. unfold After.
  destruct (Z.ltb_spec (DB.EndDate sub) now); [lia|].
  destruct (String.eqb_spec planID ""); cbn [negb andb].
  - exists sub. repeat split; try done. by left.
  - destruct (String.eqb_spec (DB.PlanID sub) planID); cbn [negb].
    + exists sub. repeat split; try done. by right.
    + by split.
Qed.

(** X27. On a store built from the migration of the repository nobody
    has access. Its table [subscriptions] has no column [payment_method]
    (the migration names it [payment_method_id]), so the store rejects the
    [SELECT] of the lookup whatever rows it holds: every subscription check
    ends in the verdict "No active subscription found", no enforcement call
    is answered 200, and every access check that misses the cache answers
    that denial. *)
Theorem migration_schema_denies_everyone now s :
  DB.subscription_columns (subscriptionSvc s) = DB.migration001 ->
  (forall userID,
     Subscription.GetActiveSubscriptionByUserID now (subscriptionSvc s) userID =
       Err (if DB.available (subscriptionSvc s) then DB.ErrStatement else DB.ErrConn)) /\
  (forall userID planID,
     checkSubscriptionAccess now s userID planID =
       (false, "No active subscription found", zeroTime, None)) /\
  (forall bound, status (snd (EnforcePaywall now s bound)) <> StatusOK) /\
  (forall marshal unmarshal req,
     getCachedAccess unmarshal now (cache s) (accessKey req) = None ->
     snd (fst (CheckAccess marshal unmarshal now s (Ok req))) =
       {| status := StatusOK;
          body := CheckBody {| HasAccess := false;
                               CheckReason := "No active subscription found";
                               CheckExpiresAt := zeroTime |} |}).
Proof.
  intros Hcols.
  assert (Hlookup : forall db userID,
            DB.subscription_columns db = DB.migration001 ->
            Subscription.GetActiveSubscriptionByUserID now db userID =
              Err (if DB.available db then DB.ErrStatement else DB.ErrConn)).
  { intros db userID Hdb. unfold Subscription.GetActiveSubscriptionByUserID.
    destruct (DB.available db); [|done].
    unfold Subscription.hasColumns. by rewrite Hdb. }
  assert (Hcheck : forall (c : gmap string Entry) userID planID,
            checkSubscriptionAccess now
              {| cache := c; subscriptionSvc := subscriptionSvc s |} userID planID =
              (false, "No active subscription found", zeroTime, None)).
  { intros c userID planID. unfold checkSubscriptionAccess. cbn [subscriptionSvc].
    by rewrite (Hlookup _ userID Hcols). }
  split; [intros userID; by apply Hlookup|].
  split; [intros userID planID; destruct s; apply Hcheck|].
  split.
  - intros bound. unfold EnforcePaywall. destruct bound as [req|msg]; [|done].
    destruct (checkRateLimit _ _ _ _) as [c1 ok]. destruct ok; cbn [negb]; [|done].
    by rewrite Hcheck.
  - intros marshal unmarshal req Hmiss. unfold CheckAccess. rewrite Hmiss.
    destruct s as [c db]. by rewrite (Hcheck c).
Qed.

Lemma migration_schema_denies_everyone_witness :
  map DB.sub_status (DB.subscriptions (subscriptionSvc Scenario.svcMigration)) = ["active"] /\
  checkSubscriptionAccess (3 * Second) Scenario.svcMigration
    "7c9e6679-7425-40de-944b-e07fc1f90ae7" "" =
    (false, "No active subscription found", zeroTime, None) /\
  status (snd (EnforcePaywall (3 * Second) Scenario.svcMigration (Ok Scenario.view)))
    <> StatusOK.
Proof.
  split; [reflexivity|].
  destruct (migration_schema_denies_everyone (3 * Second) Scenario.svcMigration eq_refl)
    as (_ & Hcheck & Henforce & _).
  split; [apply Hcheck|apply Henforce].
Defined.

End LookupProofs.

(** ** More on the rate limiter *)

Module LimiterProofs.
Import GoInt GoTime Strconv Cache Paywall DecimalFacts CacheFacts RateLimitProofs.

Lemma rateLimitAll_app (ts us : list Time) (c : gmap string Entry) userID action :
  rateLimitAll (ts ++ us) c userID action =
    (fst (rateLimitAll us (fst (rateLimitAll ts c userID action)) userID action),
     snd (rateLimitAll ts c userID action) ++
     snd (rateLimitAll us (fst (rateLimitAll ts c userID action)) userID action)).
Proof.
  revert c. induction ts as [|t ts IH]; intros c; cbn [rateLimitAll app fst snd].
  - by destruct (rateLimitAll us c userID action).
  - destruct (checkRateLimit t c userID action) as [c1 b]. rewrite IH.
    by destruct (rateLimitAll ts c1 userID action), (rateLimitAll us _ userID action).
Qed.

(** Inside the window of a counter that reads [n]: the next [10 - n] calls
    pass, all later ones are refused. *)
Lemma rateLimitAll_counted userID action when (ts : list Time) :
  forall (c : gmap string Entry) (n : nat),
  counterAt c (rateLimitKey userID action) (Z.of_nat n) when ->
  (1 <= n <= 10)%nat ->
  Forall (fun t => mstime t <= when) ts ->
  exists c',
    rateLimitAll ts c userID action =
      (c', replicate (Nat.min (10 - n) (length ts)) true ++
           replicate (length ts - (10 - n)) false) /\
    counterAt c' (rateLimitKey userID action) (Z.of_nat (Nat.min 10 (n + length ts))) when.
Proof.
  induction ts as [|t ts IH]; intros c n Hc Hn Hts.
  - exists c. cbn [rateLimitAll length]. rewrite Nat.min_0_r, Nat.add_0_r.
    by rewrite Nat.min_r by lia.
  - inversion Hts as [|? ? Ht Hts']; subst. cbn [rateLimitAll length].
    destruct (decide (n = 10%nat)) as [->|Hlt].
    + rewrite (checkRateLimit_full t c _ _ _ _ Hc Ht) by (unfold maxInt64; lia).
      destruct (IH c 10%nat Hc ltac:(lia) Hts') as (c' & Hrun & Hc').
      exists c'. rewrite Hrun. split.
      * cbn [Nat.sub Nat.min replicate app]. by rewrite Nat.sub_0_r.
      * by rewrite !Nat.min_l in * by lia.
    + rewrite (checkRateLimit_below t c _ _ _ _ Hc Ht) by (unfold minInt64; lia).
      destruct (IH (<[rateLimitKey userID action :=
                        {| value := ll2string (Z.of_nat n + 1); expireAt := Some when |}]> c)
                  (S n)) as (c' & Hrun & Hc'); [| lia | done |].
      { unfold counterAt. rewrite lookup_insert_eq. do 3 f_equal. lia. }
      exists c'. rewrite Hrun. split.
      * replace (10 - n)%nat with (S (10 - S n)) by lia.
        cbn [Nat.min replicate app]. by replace (S (length ts) - S (10 - S n))%nat
          with (length ts - (10 - S n))%nat by lia.
      * by replace (n + S (length ts))%nat with (S n + length ts)%nat by lia.
Qed.

(** X3. At most ten per window. With no live counter at [t1], of the call
    at [t1] and any number of calls after it inside the window it opens, the
    first ten are let through and every further one is refused. *)
Theorem rate_limit_at_most_ten (c : gmap string Entry) userID action
    (t1 : Time) (ts : list Time) :
  find t1 (rateLimitKey userID action) c = None ->
  Forall (fun t => t < t1 + Minute) ts ->
  snd (rateLimitAll (t1 :: ts) c userID action) =
    replicate (Nat.min 10 (S (length ts))) true ++ replicate (S (length ts) - 10) false.
Proof.
  intros Hfresh Hts. cbn [rateLimitAll]. rewrite (checkRateLimit_fresh _ _ _ _ Hfresh).
  destruct (rateLimitAll_counted userID action (mstime t1 + 60000) ts
              (<[rateLimitKey userID action :=
                   {| value := "1"; expireAt := Some (mstime t1 + 60000) |}]> c) 1%nat)
    as (c' & Hrun & _).
  - unfold counterAt. apply lookup_insert_eq.
  - lia.
  - eapply Forall_impl; [exact Hts|]. intros t Ht. by apply mstime_window.
  - rewrite Hrun. cbn [snd]. by change (10 - 1)%nat with 9%nat.
Qed.

Lemma rate_limit_at_most_ten_witness :
  snd (rateLimitAll (0 :: tail (Scenario.every Second 13)) ∅ "7c9e6679-7425-40de-944b-e07fc1f90ae7" "view") =
    replicate 10 true ++ replicate 3 false.
Proof.
  apply (rate_limit_at_most_ten ∅ "7c9e6679-7425-40de-944b-e07fc1f90ae7" "view" 0 (tail (Scenario.every Second 13))).
  - reflexivity.
  - repeat constructor; vm_compute; reflexivity.
Defined.

(** X4. The window is fixed, so a burst can straddle its end. Ten calls
    inside one window and ten more inside the window that the first call
    after its expiry opens are all let through. The nine calls after the
    opener of the first window may come at its very end and the ten of the
    second right after it, so nineteen calls can pass within a few
    milliseconds, and twenty within little more than one minute. *)
Theorem rate_limit_boundary_burst (c : gmap string Entry) userID action
    (t1 : Time) (ts1 : list Time) (t2 : Time) (ts2 : list Time) :
  find t1 (rateLimitKey userID action) c = None ->
  length ts1 = 9%nat -> Forall (fun t => t < t1 + Minute) ts1 ->
  mstime t1 + 60000 < mstime t2 ->
  length ts2 = 9%nat -> Forall (fun t => t < t2 + Minute) ts2 ->
  snd (rateLimitAll ((t1 :: ts1) ++ t2 :: ts2) c userID action) = replicate 20 true.
Proof.
  intros Hfresh Hlen1 Hts1 Hexp Hlen2 Hts2.
  rewrite rateLimitAll_app. cbn [snd].
  assert (Hfirst : exists c1,
             rateLimitAll (t1 :: ts1) c userID action = (c1, replicate 10 true) /\
             counterAt c1 (rateLimitKey userID action) 10 (mstime t1 + 60000)).
  { cbn [rateLimitAll]. rewrite (checkRateLimit_fresh _ _ _ _ Hfresh).
    destruct (rateLimitAll_below userID action (mstime t1 + 60000) ts1
                (<[rateLimitKey userID action :=
                     {| value := "1"; expireAt := Some (mstime t1 + 60000) |}]> c) 1)
      as (c1 & Hrun & Hc1 & _); try lia.
    - unfold counterAt. apply lookup_insert_eq.
    - eapply Forall_impl; [exact Hts1|]. intros t Ht. by apply mstime_window.
    - exists c1. rewrite Hrun, Hlen1. split; [done|]. by rewrite Hlen1 in Hc1. }
  destruct Hfirst as (c1 & Hrun1 & Hc1). rewrite Hrun1. cbn [fst snd].
  assert (Hgone : find t2 (rateLimitKey userID action) c1 = None)
    by (eapply find_expired; [exact Hc1|done]).
  cbn [rateLimitAll]. rewrite (checkRateLimit_fresh _ _ _ _ Hgone).
  destruct (rateLimitAll_below userID action (mstime t2 + 60000) ts2
              (<[rateLimitKey userID action :=
                   {| value := "1"; expireAt := Some (mstime t2 + 60000) |}]> c1) 1)
    as (c2 & Hrun2 & _); try lia.
  - unfold counterAt. apply lookup_insert_eq.
  - eapply Forall_impl; [exact Hts2|]. intros t Ht. by apply mstime_window.
  - rewrite Hrun2, Hlen2. done.
Qed.

Lemma rate_limit_boundary_burst_witness :
  snd (rateLimitAll ((0 :: replicate 9 (Minute - 1)) ++
                     (Minute + Millisecond) :: replicate 9 (Minute + Millisecond + 1))
         ∅ "7c9e6679-7425-40de-944b-e07fc1f90ae7" "view") = replicate 20 true.
Proof.
  apply (rate_limit_boundary_burst ∅ "7c9e6679-7425-40de-944b-e07fc1f90ae7" "view" 0 (replicate 9 (Minute - 1))
           (Minute + Millisecond) (replicate 9 (Minute + Millisecond + 1))).
  - reflexivity.
  - reflexivity.
  - repeat constructor; vm_compute; reflexivity.
  - vm_compute; reflexivity.
  - reflexivity.
  - repeat constructor; vm_compute; reflexivity.
Defined.

(** X5. A counter that cannot be read never blocks. When the key is
    absent, has expired, or holds text that is not a number, the call is let
    through and the counter starts again at 1 with a full window. *)
Theorem rate_limit_restarts_unreadable now (c : gmap string Entry) userID action :
  (find now (rateLimitKey userID action) c = None \/
   exists e, find now (rateLimitKey userID action) c = Some e /\ Atoi (value e) = None) ->
  checkRateLimit now c userID action =
    (<[rateLimitKey userID action :=
         {| value := "1"; expireAt := Some (mstime now + 60000) |}]> c, true).
Proof.
  intros [Hf|(e & Hf & Hbad)]; unfold checkRateLimit, Get; rewrite Hf; [done|].
  by rewrite Hbad.
Qed.

Lemma rate_limit_restarts_unreadable_witness :
  checkRateLimit (5 * Second)
    (<[rateLimitKey "7c9e6679-7425-40de-944b-e07fc1f90ae7" "view" := {| value := "ten"; expireAt := None |}]> ∅) "7c9e6679-7425-40de-944b-e07fc1f90ae7" "view" =
    (<[rateLimitKey "7c9e6679-7425-40de-944b-e07fc1f90ae7" "view" :=
         {| value := "1"; expireAt := Some (mstime (5 * Second) + 60000) |}]>
       (<[rateLimitKey "7c9e6679-7425-40de-944b-e07fc1f90ae7" "view" := {| value := "ten"; expireAt := None |}]> ∅), true).
Proof.
  apply (rate_limit_restarts_unreadable (5 * Second)
           (<[rateLimitKey "7c9e6679-7425-40de-944b-e07fc1f90ae7" "view" := {| value := "ten"; expireAt := None |}]> ∅)
           "7c9e6679-7425-40de-944b-e07fc1f90ae7" "view").
  right. exists {| value := "ten"; expireAt := None |}. split; reflexivity.
Defined.

End LimiterProofs.

(** ** More on the usage accountant *)

Module AccountantProofs.
Import GoInt GoTime Strconv Cache Paywall DecimalFacts CacheFacts UsageProofs.

Lemma Atoi_range s n : Atoi s = Some n -> minInt64 <= n <= maxInt64.
Proof.
  unfold Atoi. intros H.
  apply bind_Some in H as (m & _ & H).
  unfold in_int64 in H. destruct (minInt64 <=? m) eqn:H1; [|done].
  destruct (m <=? maxInt64) eqn:H2; [|done]. injection H as <-.
  apply Z.leb_le in H1, H2. lia.
Qed.

(** X6. What the usage report can say. The limit is always 100, no error
    is ever returned, and the remaining quota is never negative; for a
    counter that is not negative it is [max 0 (100 - current)], and a key
    that is absent or not a number is reported as no usage at all. *)
Theorem usage_report_bounds now (c : gmap string Entry) userID action :
  snd (checkUsageLimits now c userID action) = None /\
  Limit (fst (checkUsageLimits now c userID action)) = 100 /\
  0 <= Remaining (fst (checkUsageLimits now c userID action)) /\
  (0 <= Current (fst (checkUsageLimits now c userID action)) ->
   Remaining (fst (checkUsageLimits now c userID action)) =
     Z.max 0 (100 - Current (fst (checkUsageLimits now c userID action)))) /\
  (Get now (usageKey userID action) c = Err Nil \/
   (exists v, Get now (usageKey userID action) c = Ok v /\ Atoi v = None) ->
   fst (checkUsageLimits now c userID action) =
     {| Current := 0; Limit := 100; Remaining := 100 |}).
Proof.
  unfold checkUsageLimits.
  destruct (Get now (usageKey userID action) c) as [v|e] eqn:Hget.
  - destruct (Atoi v) as [n|] eqn:Hparse.
    + pose proof (Atoi_range _ _ Hparse) as Hn. unfold minInt64, maxInt64 in Hn.
      cbn [fst snd Current Limit Remaining].
      repeat split.
      * destruct (Z.ltb_spec (wrap64 (100 - n)) 0); lia.
      * intros Hpos. rewrite GoIntFacts.wrap64_id by (unfold minInt64, maxInt64; lia).
        destruct (Z.ltb_spec (100 - n) 0); lia.
      * intros [Habs|(v' & Hv' & Hbad)]; [done|]. injection Hv' as <-. congruence.
    + cbn. repeat split; try done; lia.
  - cbn. repeat split; try done; lia.
Qed.

Lemma usageExpiry_le now :
  now mod Day <= 86398 * Second -> usageExpiry now <= mstime (endOfDay now).
Proof.
  intros Hday. destruct (usageExpiry_day _ Hday) as (Heq & _ & _). rewrite Heq.
  revert Hday.
  unfold endOfDay, mstime, Day, Hour, Minute, Second, Millisecond. intros Hday.
  change (24 * (60 * (60 * 1000000000))) with 86400000000000 in *.
  pose proof (Z.div_mod now 86400000000000).
  pose proof (Z.mod_pos_bound now 86400000000000).
  set (m := now mod 86400000000000) in *.
  set (d := now - m + 86399 * 1000000000 - now).
  pose proof (Z.div_mod d 1000000000). pose proof (Z.mod_pos_bound d 1000000000).
  pose proof (Z.div_mod now 1000000). pose proof (Z.mod_pos_bound now 1000000).
  pose proof (Z.div_mod (now - m + 86399 * 1000000000) 1000000).
  pose proof (Z.mod_pos_bound (now - m + 86399 * 1000000000) 1000000).
  unfold d in *. lia.
Qed.

Lemma last_cons (t : Time) (ts : list Time) d : List.last (t :: ts) d = List.last ts t.
Proof.
  revert t d. induction ts as [|x ts IH]; intros t d; [done|].
  change (List.last (t :: x :: ts) d) with (List.last (x :: ts) d).
  by rewrite (IH x d), (IH x t).
Qed.

(** Increments of one day, each at or before 23:59:58, on a counter that
    reads [k]: the count grows by one each time, and the expiry is the one
    the last increment asked for. *)
Lemma incrementAll_counted t1 userID action (ts : list Time) :
  forall (c : gmap string Entry) k tprev,
  counterAt c (usageKey userID action) k (usageExpiry tprev) ->
  sameDay t1 tprev ->
  0 <= k -> k + Z.of_nat (length ts) < maxInt64 ->
  Forall (sameDay t1) ts ->
  counterAt (incrementAll ts c userID action) (usageKey userID action)
    (k + Z.of_nat (length ts)) (usageExpiry (List.last ts tprev)).
Proof.
  induction ts as [|t ts IH]; intros c k tprev Hc Hprev Hk Hlen Hts.
  - cbn. by rewrite Z.add_0_r.
  - cbn [length] in Hlen. inversion Hts as [|? ? Hsame Hts']; subst.
    destruct (sameDay_endOfDay _ _ Hsame) as [_ Hms].
    destruct (sameDay_endOfDay _ _ Hprev) as [Hend _].
    destruct (usageExpiry_day tprev (proj2 Hprev)) as (_ & _ & Hge). rewrite Hend in Hge.
    assert (Hfind : find t (usageKey userID action) c =
                      Some {| value := ll2string k;
                              expireAt := Some (usageExpiry tprev) |}).
    { apply find_live; [exact Hc|]. apply expired_false. lia. }
    unfold incrementAll. cbn [foldl].
    rewrite (incrementUsage_counter _ _ _ _ _ _ Hfind) by
      (try apply Hsame; unfold minInt64; lia).
    cbn [fst]. rewrite last_cons.
    replace (k + Z.of_nat (length (t :: ts))) with (k + 1 + Z.of_nat (length ts))
      by (cbn [length]; lia).
    apply (IH _ (k + 1) t); try done; try lia.
    unfold counterAt. apply lookup_insert_eq.
Qed.

Lemma incrementAll_first t1 userID action (ts : list Time) (c : gmap string Entry) :
  find t1 (usageKey userID action) c = None ->
  Forall (sameDay t1) (t1 :: ts) ->
  Z.of_nat (S (length ts)) < maxInt64 ->
  counterAt (incrementAll (t1 :: ts) c userID action) (usageKey userID action)
    (Z.of_nat (S (length ts))) (usageExpiry (List.last ts t1)).
Proof.
  intros Hf Hts Hlen. inversion Hts as [|? ? Hsame Hts']; subst.
  unfold incrementAll. cbn [foldl].
  rewrite (incrementUsage_absent _ _ _ _ Hf (proj2 Hsame)). cbn [fst].
  replace (Z.of_nat (S (length ts))) with (1 + Z.of_nat (length ts)) by lia.
  apply (incrementAll_counted t1 userID action ts _ 1 t1); try done; try lia.
  unfold counterAt. apply lookup_insert_eq.
Qed.

(** The expiry an increment at or before 23:59:58 asks for lies in the
    last second before 23:59:59. *)
Lemma usageExpiry_sameDay t1 t :
  sameDay t1 t ->
  mstime (endOfDay t1) - 1000 <= usageExpiry t <= mstime (endOfDay t1).
Proof.
  intros Hsame. destruct (sameDay_endOfDay _ _ Hsame) as [Hend _].
  destruct (usageExpiry_day t (proj2 Hsame)) as (_ & _ & Hge).
  pose proof (usageExpiry_le t (proj2 Hsame)) as Hle.
  rewrite Hend in Hge, Hle. lia.
Qed.

Lemma last_sameDay t1 (ts : list Time) :
  Forall (sameDay t1) (t1 :: ts) -> sameDay t1 (List.last ts t1).
Proof.
  intros Hts. apply Forall_forall with (x := List.last ts t1) in Hts; [done|].
  apply list_elem_of_In. rewrite <- (last_cons t1 ts t1).
  destruct (exists_last (l := t1 :: ts)) as (l & x & Heq); [done|].
  rewrite Heq, last_last. apply in_app_iff. right. by left.
Qed.

(** X7. Increments are counted. After [k] increments made on one day,
    each at or before 23:59:58, on a subject with no live counter, a report
    asked for while the server's clock has not passed the expiry that the
    last increment asked for shows current [k] and remaining
    [max 0 (100 - k)]; that expiry lies in the last second before 23:59:59,
    so this holds for every report of that day at or before 23:59:58. *)
Theorem usage_report_counts_increments (c : gmap string Entry) userID action
    (t1 : Time) (ts : list Time) (t : Time) :
  find t1 (usageKey userID action) c = None ->
  Forall (sameDay t1) (t1 :: ts) ->
  Z.of_nat (S (length ts)) < maxInt64 ->
  sameDay t1 t \/ mstime t <= usageExpiry (List.last ts t1) ->
  checkUsageLimits t (incrementAll (t1 :: ts) c userID action) userID action =
    ({| Current := Z.of_nat (S (length ts)); Limit := 100;
        Remaining := Z.max 0 (100 - Z.of_nat (S (length ts))) |}, None).
Proof.
  intros Hf Hts Hlen Ht.
  pose proof (incrementAll_first t1 userID action ts c Hf Hts Hlen) as Hc.
  pose proof (usageExpiry_sameDay t1 _ (last_sameDay t1 ts Hts)) as Hwhen.
  apply (checkUsageLimits_counter _ _ _ _ _ (Some (usageExpiry (List.last ts t1)))); [|lia].
  apply find_live; [exact Hc|]. apply expired_false.
  destruct Ht as [Ht|Ht]; [|exact Ht].
  destruct (sameDay_endOfDay _ _ Ht) as [_ Hms]. lia.
Qed.

Lemma usage_report_counts_increments_witness :
  checkUsageLimits (2 * Hour)
    (incrementAll (0 :: tail (Scenario.every Minute 100)) ∅
       "7c9e6679-7425-40de-944b-e07fc1f90ae7" "view")
    "7c9e6679-7425-40de-944b-e07fc1f90ae7" "view" =
    ({| Current := 100; Limit := 100; Remaining := 0 |}, None).
Proof.
  apply (usage_report_counts_increments ∅ "7c9e6679-7425-40de-944b-e07fc1f90ae7" "view" 0
           (tail (Scenario.every Minute 100)) (2 * Hour)).
  - reflexivity.
  - apply Forall_forall. intros t Ht. apply list_elem_of_In in Ht.
    change (0 :: tail (Scenario.every Minute 100)) with (Scenario.every Minute 100) in Ht.
    unfold Scenario.every in Ht. apply in_map_iff in Ht as (i & <- & Hi).
    apply in_seq in Hi. unfold sameDay, Day, Hour, Minute, Second.
    split.
    + rewrite (Z.div_small (Z.of_nat i * _)) by lia. reflexivity.
    + rewrite Z.mod_small by lia. lia.
  - vm_compute; reflexivity.
  - left. split; vm_compute; [reflexivity|discriminate].
Defined.

(** X8. The counter ends with its expiry. After increments made on one
    day, each at or before 23:59:58, a report asked for once the server's
    clock has passed the expiry that the last increment asked for shows no
    usage; that expiry is not after 23:59:59, so this holds for every report
    asked for once the clock has passed 23:59:59 of that day. *)
Theorem usage_report_resets_after_day (c : gmap string Entry) userID action
    (t1 : Time) (ts : list Time) (t' : Time) :
  find t1 (usageKey userID action) c = None ->
  Forall (sameDay t1) (t1 :: ts) ->
  Z.of_nat (S (length ts)) < maxInt64 ->
  usageExpiry (List.last ts t1) < mstime t' \/ mstime (endOfDay t1) < mstime t' ->
  checkUsageLimits t' (incrementAll (t1 :: ts) c userID action) userID action =
    ({| Current := 0; Limit := 100; Remaining := 100 |}, None).
Proof.
  intros Hf Hts Hlen Hafter.
  pose proof (incrementAll_first t1 userID action ts c Hf Hts Hlen) as Hc.
  pose proof (usageExpiry_sameDay t1 _ (last_sameDay t1 ts Hts)) as Hwhen.
  apply checkUsageLimits_absent.
  eapply find_expired; [exact Hc|]. destruct Hafter; lia.
Qed.

Lemma usage_report_resets_after_day_witness :
  checkUsageLimits (86398 * Second + 800 * Millisecond)
    (incrementAll [10 * Hour + 500 * Millisecond] ∅
       "7c9e6679-7425-40de-944b-e07fc1f90ae7" "view")
    "7c9e6679-7425-40de-944b-e07fc1f90ae7" "view" =
    ({| Current := 0; Limit := 100; Remaining := 100 |}, None).
Proof.
  apply (usage_report_resets_after_day ∅ "7c9e6679-7425-40de-944b-e07fc1f90ae7" "view"
           (10 * Hour + 500 * Millisecond) [] (86398 * Second + 800 * Millisecond)).
  - reflexivity.
  - repeat constructor; vm_compute; try reflexivity; discriminate.
  - vm_compute; reflexivity.
  - left. vm_compute; reflexivity.
Defined.

(** X9. The last second of the day. An increment made from 23:59:59 on
    asks for an expiry of no whole second, on which the server removes the
    key: the call reports no error, yet the increment is lost together with
    whatever the counter held. *)
Theorem increment_in_last_second_is_lost now (c : gmap string Entry) userID action :
  86399 * Second <= now mod Day ->
  (find now (usageKey userID action) c = None \/
   exists n ea, find now (usageKey userID action) c =
                  Some {| value := ll2string n; expireAt := ea |} /\
                minInt64 <= n < maxInt64) ->
  incrementUsage now c userID action = (delete (usageKey userID action) c, None) /\
  Get now (usageKey userID action) (fst (incrementUsage now c userID action)) = Err Nil.
Proof.
  intros Hlast Hstate.
  pose proof (incrementUsage_last_second now c userID action Hlast Hstate) as Hresult.
  split; [exact Hresult|]. rewrite Hresult. cbn [fst].
  unfold Get, find. by rewrite lookup_delete_eq.
Qed.

Lemma increment_in_last_second_is_lost_witness :
  Get (86399 * Second) (usageKey "7c9e6679-7425-40de-944b-e07fc1f90ae7" "view")
    (incrementAll [10 * Hour; 11 * Hour] ∅ "7c9e6679-7425-40de-944b-e07fc1f90ae7" "view") = Ok "2" /\
  Get (86399 * Second) (usageKey "7c9e6679-7425-40de-944b-e07fc1f90ae7" "view")
    (fst (incrementUsage (86399 * Second)
            (incrementAll [10 * Hour; 11 * Hour] ∅ "7c9e6679-7425-40de-944b-e07fc1f90ae7" "view") "7c9e6679-7425-40de-944b-e07fc1f90ae7" "view")) = Err Nil.
Proof.
  split; [vm_compute; reflexivity|].
  apply (increment_in_last_second_is_lost (86399 * Second)
           (incrementAll [10 * Hour; 11 * Hour] ∅ "7c9e6679-7425-40de-944b-e07fc1f90ae7" "view") "7c9e6679-7425-40de-944b-e07fc1f90ae7" "view").
  - vm_compute; discriminate.
  - right. exists 2, (Some 86399000). split; [vm_compute; reflexivity|].
    vm_compute. split; [discriminate|reflexivity].
Defined.

End AccountantProofs.

(** ** What an enforcement call changes *)

Module EnforceProofs.
Import GoInt GoTime Strconv Cache Paywall CacheFacts RateLimitProofs.

Lemma incrementUsage_frame now (c : gmap string Entry) userID action k :
  k <> usageKey userID action ->
  fst (incrementUsage now c userID action) !! k = c !! k.
Proof.
  intros Hk. unfold incrementUsage.
  assert (Hincr : fst (Incr now (usageKey userID action) c) !! k = c !! k).
  { unfold Incr.
    destruct (find _ _ _) as [e|]; [destruct (string2ll _) as [n|]|]; cbn [fst]; try done.
    - destruct (n <? maxInt64); cbn [fst]; [|done]. by rewrite lookup_insert_ne.
    - by rewrite lookup_insert_ne. }
  destruct (Incr now (usageKey userID action) c) as [c1 [n|e]]; cbn [fst] in *; [|done].
  assert (Hexp : fst (Expire now (usageKey userID action) (Sub (endOfDay now) now) c1) !! k
                 = c1 !! k).
  { unfold Expire. destruct (find _ _ _) as [e|]; cbn [fst]; [|done].
    destruct (_ <=? _); cbn [fst].
    - by rewrite lookup_delete_ne.
    - by rewrite lookup_insert_ne. }
  destruct (Expire now (usageKey userID action) (Sub (endOfDay now) now) c1) as [c2 [b|e]];
    cbn [fst] in *; congruence.
Qed.

Lemma checkRateLimit_refused now (c : gmap string Entry) userID action :
  snd (checkRateLimit now c userID action) = false ->
  fst (checkRateLimit now c userID action) = c.
Proof.
  unfold checkRateLimit.
  destruct (Get _ _ _) as [current|err]; [destruct (Atoi current) as [count|]|]; try done.
  by destruct (10 <=? count).
Qed.

(** X10. An enforcement call touches two keys at most. Whatever the
    request and its answer, every cache key other than the rate-limit and
    the usage counter of the request's subject and action holds what it held
    before, and the subscription store is not written. *)
Theorem enforce_touches_only_its_counters now s bound k :
  (forall req, bound = Ok req ->
     k <> rateLimitKey (UserID req) (Action req) /\
     k <> usageKey (UserID req) (Action req)) ->
  cache (fst (EnforcePaywall now s bound)) !! k = cache s !! k /\
  subscriptionSvc (fst (EnforcePaywall now s bound)) = subscriptionSvc s.
Proof.
  intros Hk. unfold EnforcePaywall. destruct bound as [req|msg]; [|done].
  destruct (Hk req eq_refl) as [Hrate Husage].
  pose proof (checkRateLimit_frame now (cache s) (UserID req) (Action req) k Hrate) as Hframe.
  destruct (checkRateLimit _ _ _ _) as [c1 ok]. cbn [fst] in Hframe.
  destruct ok; cbn [negb]; [|done].
  destruct (checkSubscriptionAccess _ _ _ _) as [[[hasAccess reason] expiresAt] [err|]];
    [done|].
  destruct hasAccess; cbn [negb]; [|done].
  destruct (checkUsageLimits _ _ _ _) as [usage [e|]]; [done|].
  cbn [fst cache subscriptionSvc]. split; [|done].
  by rewrite incrementUsage_frame.
Qed.

Lemma enforce_touches_only_its_counters_witness :
  cache (fst (EnforcePaywall (3 * Second) Scenario.svc1
                (Ok {| UserID := "7c9e6679-7425-40de-944b-e07fc1f90ae7"; ContentID := "c1"; Action := "view" |})))
    !! usageKey "2f1b8c3a-5d4e-4f6a-8b7c-9d0e1f2a3b4c" "view" = cache Scenario.svc1 !! usageKey "2f1b8c3a-5d4e-4f6a-8b7c-9d0e1f2a3b4c" "view" /\
  subscriptionSvc (fst (EnforcePaywall (3 * Second) Scenario.svc1
                (Ok {| UserID := "7c9e6679-7425-40de-944b-e07fc1f90ae7"; ContentID := "c1"; Action := "view" |})))
    = subscriptionSvc Scenario.svc1.
Proof.
  apply (enforce_touches_only_its_counters (3 * Second) Scenario.svc1
           (Ok {| UserID := "7c9e6679-7425-40de-944b-e07fc1f90ae7"; ContentID := "c1"; Action := "view" |})
           (usageKey "2f1b8c3a-5d4e-4f6a-8b7c-9d0e1f2a3b4c" "view")).
  intros req [= <-]. split; vm_compute; discriminate.
Defined.

(** X11. A refused request leaves no trace. When the answer is 400 (body
    not bound) or 429 (rate limit), the service is exactly as it was: no
    counter is created, incremented or given a new expiry. *)
Theorem enforce_refusal_changes_nothing now s bound :
  status (snd (EnforcePaywall now s bound)) = StatusBadRequest \/
  status (snd (EnforcePaywall now s bound)) = StatusTooManyRequests ->
  fst (EnforcePaywall now s bound) = s.
Proof.
  unfold EnforcePaywall. destruct bound as [req|msg]; [|done].
  pose proof (checkRateLimit_refused now (cache s) (UserID req) (Action req)) as Hsame.
  destruct (checkRateLimit _ _ _ _) as [c1 ok]. cbn [fst snd] in Hsame.
  destruct ok; cbn [negb].
  - destruct (checkSubscriptionAccess _ _ _ _) as [[[hasAccess reason] expiresAt] [err|]].
    { cbn. intros [H|H]; discriminate. }
    destruct hasAccess; cbn [negb]; [|cbn; intros [H|H]; discriminate].
    destruct (checkUsageLimits _ _ _ _) as [usage [e|]]; cbn; intros [H|H]; discriminate.
  - intros _. cbn [fst]. rewrite Hsame by done. by destruct s.
Qed.

Lemma enforce_refusal_changes_nothing_witness :
  fst (EnforcePaywall (10 * Second)
         (fst (enforceAll (Scenario.every Second 10) Scenario.svcDay Scenario.view))
         (Ok Scenario.view))
  = fst (enforceAll (Scenario.every Second 10) Scenario.svcDay Scenario.view).
Proof.
  apply (enforce_refusal_changes_nothing (10 * Second)
           (fst (enforceAll (Scenario.every Second 10) Scenario.svcDay Scenario.view))
           (Ok Scenario.view)).
  right. vm_compute. reflexivity.
Defined.

(** X12. A request denied for want of a subscription still counts against
    the rate limit, but not against the quota. When the answer is 403 the
    request was bound and passed the rate limiter, the cache is the one the
    rate limiter left, and the usage counter holds what it held before. *)
Theorem enforce_denial_spends_rate_not_quota now s bound :
  status (snd (EnforcePaywall now s bound)) = StatusForbidden ->
  exists req, bound = Ok req /\
    snd (checkRateLimit now (cache s) (UserID req) (Action req)) = true /\
    fst (EnforcePaywall now s bound) =
      {| cache := fst (checkRateLimit now (cache s) (UserID req) (Action req));
         subscriptionSvc := subscriptionSvc s |} /\
    cache (fst (EnforcePaywall now s bound)) !! usageKey (UserID req) (Action req) =
      cache s !! usageKey (UserID req) (Action req).
Proof.
  unfold EnforcePaywall. destruct bound as [req|msg]; [|done].
  pose proof (checkRateLimit_frame now (cache s) (UserID req) (Action req)
                (usageKey (UserID req) (Action req))) as Hframe.
  destruct (checkRateLimit now (cache s) (UserID req) (Action req)) as [c1 ok] eqn:Hrate.
  cbn [fst snd] in *.
  destruct ok; cbn [negb]; [|done].
  destruct (checkSubscriptionAccess _ _ _ _) as [[[hasAccess reason] expiresAt] [err|]];
    [done|].
  destruct hasAccess; cbn [negb].
  { destruct (checkUsageLimits _ _ _ _) as [usage [e|]]; done. }
  intros _. exists req. rewrite Hrate. cbn [fst snd cache].
  split; [done|]. split; [done|]. split; [done|].
  apply Hframe. unfold usageKey, rateLimitKey. discriminate.
Qed.

Lemma enforce_denial_spends_rate_not_quota_witness :
  exists req,
    (Ok Scenario.view : Result string PaywallEnforceRequest) = Ok req /\
    snd (checkRateLimit (3 * Second) (cache Scenario.svcNoSubscription)
           (UserID req) (Action req)) = true /\
    fst (EnforcePaywall (3 * Second) Scenario.svcNoSubscription (Ok Scenario.view)) =
      {| cache := fst (checkRateLimit (3 * Second) (cache Scenario.svcNoSubscription)
                         (UserID req) (Action req));
         subscriptionSvc := subscriptionSvc Scenario.svcNoSubscription |} /\
    cache (fst (EnforcePaywall (3 * Second) Scenario.svcNoSubscription (Ok Scenario.view)))
      !! usageKey (UserID req) (Action req) =
      cache Scenario.svcNoSubscription !! usageKey (UserID req) (Action req).
Proof.
  apply (enforce_denial_spends_rate_not_quota (3 * Second) Scenario.svcNoSubscription
           (Ok Scenario.view)).
  vm_compute. reflexivity.
Defined.

End EnforceProofs.

(** ** The cache of access verdicts *)

Module CheckProofs.
Import GoInt GoTime Strconv Cache Paywall CacheFacts PaywallProofs.

Lemma append_assoc (a b c : string) : (a +:+ b) +:+ c = a +:+ (b +:+ c).
Proof.
  induction a as [|x a IH]; [done|].
  change (String x ((a +:+ b) +:+ c) = String x (a +:+ (b +:+ c))). by rewrite IH.
Qed.

Lemma append_length (a b : string) :
  String.length (a +:+ b) = (String.length a + String.length b)%nat.
Proof.
  induction a as [|x a IH]; [done|].
  change (S (String.length (a +:+ b)) = S (String.length a + String.length b)).
  by rewrite IH.
Qed.

Lemma cacheAccessResult_stored (marshal : PaywallCheckResponse -> option string)
    now (c : gmap string Entry) key r data :
  marshal r = Some data ->
  cacheAccessResult marshal now c key r =
    <[key := {| value := data; expireAt := Some (mstime now + 300000) |}]> c.
Proof. intros Hm. unfold cacheAccessResult. rewrite Hm. reflexivity. Qed.

(** What a check that misses the cache answers and leaves behind. *)
Lemma CheckAccess_miss marshal unmarshal now s req :
  getCachedAccess unmarshal now (cache s) (accessKey req) = None ->
  exists hasAccess reason expiresAt,
    checkSubscriptionAccess now s (CheckUserID req) (CheckPlanID req) =
      (hasAccess, reason, expiresAt, None) /\
    CheckAccess marshal unmarshal now s (Ok req) =
      ({| cache := cacheAccessResult marshal now (cache s) (accessKey req)
                     {| HasAccess := hasAccess; CheckReason := reason;
                        CheckExpiresAt := expiresAt |};
          subscriptionSvc := subscriptionSvc s |},
       {| status := StatusOK;
          body := CheckBody {| HasAccess := hasAccess; CheckReason := reason;
                               CheckExpiresAt := expiresAt |} |},
       if hasAccess then "access_granted" else "access_denied").
Proof.
  intros Hmiss. unfold CheckAccess. rewrite Hmiss.
  pose proof (checkSubscriptionAccess_error now s (CheckUserID req) (CheckPlanID req)) as Herr.
  destruct (checkSubscriptionAccess _ _ _ _) as [[[hasAccess reason] expiresAt] err].
  cbn in Herr. subst err. by exists hasAccess, reason, expiresAt.
Qed.

(** X13. A verdict is served from the cache for five minutes, whatever
    happens to the subscription. After a check that missed the cache and
    answered [r], any check with the same cache key made while the server's
    clock is at most 300000 ms later is answered from the cache with what
    the stored text decodes to, labelled "cache_hit", without the
    subscription store being consulted (it may hold anything by then) and
    without the service being changed. *)
Theorem cached_verdict_outlives_store marshal unmarshal t1 t2 s req req2 db' r data r' :
  getCachedAccess unmarshal t1 (cache s) (accessKey req) = None ->
  snd (fst (CheckAccess marshal unmarshal t1 s (Ok req))) =
    {| status := StatusOK; body := CheckBody r |} ->
  marshal r = Some data ->
  unmarshal data = Some r' ->
  accessKey req2 = accessKey req ->
  mstime t2 <= mstime t1 + 300000 ->
  CheckAccess marshal unmarshal t2
    {| cache := cache (fst (fst (CheckAccess marshal unmarshal t1 s (Ok req))));
       subscriptionSvc := db' |} (Ok req2) =
    ({| cache := cache (fst (fst (CheckAccess marshal unmarshal t1 s (Ok req))));
        subscriptionSvc := db' |},
     {| status := StatusOK; body := CheckBody r' |}, "cache_hit").
Proof.
  intros Hmiss Hresp Hm Hu Hkey Hwindow.
  destruct (CheckAccess_miss marshal unmarshal t1 s req Hmiss)
    as (hasAccess & reason & expiresAt & _ & Hfirst).
  rewrite Hfirst in Hresp |- *. cbn [fst snd cache] in *.
  assert (Hr : r = {| HasAccess := hasAccess; CheckReason := reason;
                      CheckExpiresAt := expiresAt |}) by congruence.
  subst r. rewrite (cacheAccessResult_stored _ _ _ _ _ _ Hm).
  unfold CheckAccess. cbn [cache]. rewrite Hkey.
  unfold getCachedAccess, Get.
  rewrite (find_live t2 _ _ {| value := data; expireAt := Some (mstime t1 + 300000) |});
    [|apply lookup_insert_eq|apply expired_false; lia].
  cbn [value]. by rewrite Hu.
Qed.

Lemma cached_verdict_outlives_store_witness :
  CheckAccess (fun _ => Some "v")
    (fun _ => Some {| HasAccess := true; CheckReason := "Valid subscription";
                      CheckExpiresAt := DB.EndDate Scenario.sub1 |})
    (5 * Minute)
    {| cache := cache (fst (fst (CheckAccess (fun _ => Some "v")
                 (fun _ => Some {| HasAccess := true; CheckReason := "Valid subscription";
                                   CheckExpiresAt := DB.EndDate Scenario.sub1 |})
                 0 Scenario.svc1 (Ok Scenario.check))));
       subscriptionSvc := subscriptionSvc Scenario.svcNoSubscription |}
    (Ok Scenario.check) =
    ({| cache := cache (fst (fst (CheckAccess (fun _ => Some "v")
                 (fun _ => Some {| HasAccess := true; CheckReason := "Valid subscription";
                                   CheckExpiresAt := DB.EndDate Scenario.sub1 |})
                 0 Scenario.svc1 (Ok Scenario.check))));
        subscriptionSvc := subscriptionSvc Scenario.svcNoSubscription |},
     {| status := StatusOK;
        body := CheckBody {| HasAccess := true; CheckReason := "Valid subscription";
                             CheckExpiresAt := DB.EndDate Scenario.sub1 |} |},
     "cache_hit").
Proof.
  apply (cached_verdict_outlives_store (fun _ => Some "v")
           (fun _ => Some {| HasAccess := true; CheckReason := "Valid subscription";
                             CheckExpiresAt := DB.EndDate Scenario.sub1 |})
           0 (5 * Minute) Scenario.svc1 Scenario.check Scenario.check
           (subscriptionSvc Scenario.svcNoSubscription)
           {| HasAccess := true; CheckReason := "Valid subscription";
              CheckExpiresAt := DB.EndDate Scenario.sub1 |} "v").
  - reflexivity.
  - vm_compute. reflexivity.
  - reflexivity.
  - reflexivity.
  - reflexivity.
  - vm_compute. discriminate.
Defined.

(** X14. The cached verdict ends with its five minutes. Once the server's
    clock is more than 300000 ms past the check that stored it, a check
    with that key is decided by the subscription store as it then is, is
    not labelled "cache_hit", and stores its own verdict. *)
Theorem cached_verdict_expires marshal unmarshal t1 t2 s req db' r data :
  getCachedAccess unmarshal t1 (cache s) (accessKey req) = None ->
  snd (fst (CheckAccess marshal unmarshal t1 s (Ok req))) =
    {| status := StatusOK; body := CheckBody r |} ->
  marshal r = Some data ->
  mstime t1 + 300000 < mstime t2 ->
  exists hasAccess reason expiresAt,
    checkSubscriptionAccess t2
      {| cache := cache (fst (fst (CheckAccess marshal unmarshal t1 s (Ok req))));
         subscriptionSvc := db' |} (CheckUserID req) (CheckPlanID req) =
      (hasAccess, reason, expiresAt, None) /\
    CheckAccess marshal unmarshal t2
      {| cache := cache (fst (fst (CheckAccess marshal unmarshal t1 s (Ok req))));
         subscriptionSvc := db' |} (Ok req) =
      ({| cache := cacheAccessResult marshal t2
                     (cache (fst (fst (CheckAccess marshal unmarshal t1 s (Ok req)))))
                     (accessKey req)
                     {| HasAccess := hasAccess; CheckReason := reason;
                        CheckExpiresAt := expiresAt |};
          subscriptionSvc := db' |},
       {| status := StatusOK;
          body := CheckBody {| HasAccess := hasAccess; CheckReason := reason;
                               CheckExpiresAt := expiresAt |} |},
       if hasAccess then "access_granted" else "access_denied").
Proof.
  intros Hmiss Hresp Hm Hlate.
  destruct (CheckAccess_miss marshal unmarshal t1 s req Hmiss)
    as (hasAccess & reason & expiresAt & _ & Hfirst).
  rewrite Hfirst in Hresp |- *. cbn [fst snd cache] in *.
  assert (Hr : r = {| HasAccess := hasAccess; CheckReason := reason;
                      CheckExpiresAt := expiresAt |}) by congruence.
  subst r. rewrite (cacheAccessResult_stored _ _ _ _ _ _ Hm).
  destruct (CheckAccess_miss marshal unmarshal t2
           {| cache := <[accessKey req := {| value := data;
                                             expireAt := Some (mstime t1 + 300000) |}]> (cache s);
              subscriptionSvc := db' |} req)
    as (hasAccess2 & reason2 & expiresAt2 & Hverdict & Hsecond).
  { cbn [cache]. unfold getCachedAccess, Get.
    rewrite (find_expired t2 _ _ data (mstime t1 + 300000)); [done|apply lookup_insert_eq|done]. }
  exists hasAccess2, reason2, expiresAt2. split; [exact Hverdict|exact Hsecond].
Qed.

Lemma cached_verdict_expires_witness :
  exists hasAccess reason expiresAt,
    checkSubscriptionAccess (5 * Minute + Millisecond)
      {| cache := cache (fst (fst (CheckAccess (fun _ => Some "v") (fun _ => None)
                                     0 Scenario.svc1 (Ok Scenario.check))));
         subscriptionSvc := subscriptionSvc Scenario.svcNoSubscription |}
      (CheckUserID Scenario.check) (CheckPlanID Scenario.check) =
      (hasAccess, reason, expiresAt, None) /\
    CheckAccess (fun _ => Some "v") (fun _ => None) (5 * Minute + Millisecond)
      {| cache := cache (fst (fst (CheckAccess (fun _ => Some "v") (fun _ => None)
                                     0 Scenario.svc1 (Ok Scenario.check))));
         subscriptionSvc := subscriptionSvc Scenario.svcNoSubscription |}
      (Ok Scenario.check) =
      ({| cache := cacheAccessResult (fun _ => Some "v") (5 * Minute + Millisecond)
                     (cache (fst (fst (CheckAccess (fun _ => Some "v") (fun _ => None)
                                         0 Scenario.svc1 (Ok Scenario.check)))))
                     (accessKey Scenario.check)
                     {| HasAccess := hasAccess; CheckReason := reason;
                        CheckExpiresAt := expiresAt |};
          subscriptionSvc := subscriptionSvc Scenario.svcNoSubscription |},
       {| status := StatusOK;
          body := CheckBody {| HasAccess := hasAccess; CheckReason := reason;
                               CheckExpiresAt := expiresAt |} |},
       if hasAccess then "access_granted" else "access_denied").
Proof.
  apply (cached_verdict_expires (fun _ => Some "v") (fun _ => None)
           0 (5 * Minute + Millisecond) Scenario.svc1 Scenario.check
           (subscriptionSvc Scenario.svcNoSubscription)
           {| HasAccess := true; CheckReason := "Valid subscription";
              CheckExpiresAt := DB.EndDate Scenario.sub1 |} "v").
  - reflexivity.
  - vm_compute. reflexivity.
  - reflexivity.
  - vm_compute. reflexivity.
Defined.

(** X15. Cache keys are ambiguous. The keys join their parts with ':' and
    the parts may contain ':', so two different requests can share the key
    of the verdict cache, and two different subjects can share a rate-limit
    counter and a usage counter. *)
Theorem cache_keys_are_ambiguous (u x c p : string) :
  {| CheckUserID := u +:+ ":" +:+ x; CheckContentID := c; CheckPlanID := p |} <>
    {| CheckUserID := u; CheckContentID := x +:+ ":" +:+ c; CheckPlanID := p |} /\
  accessKey {| CheckUserID := u +:+ ":" +:+ x; CheckContentID := c; CheckPlanID := p |} =
    accessKey {| CheckUserID := u; CheckContentID := x +:+ ":" +:+ c; CheckPlanID := p |} /\
  u +:+ ":" +:+ x <> u /\
  rateLimitKey (u +:+ ":" +:+ x) c = rateLimitKey u (x +:+ ":" +:+ c) /\
  usageKey (u +:+ ":" +:+ x) c = usageKey u (x +:+ ":" +:+ c).
Proof.
  assert (Hne : u +:+ ":" +:+ x <> u).
  { intros Heq. apply (f_equal String.length) in Heq.
    rewrite !append_length in Heq. cbn in Heq. lia. }
  split; [intros Heq; injection Heq as Hu _; by apply Hne|].
  unfold accessKey, rateLimitKey, usageKey.
  cbn [CheckUserID CheckContentID CheckPlanID].
  by rewrite !append_assoc.
Qed.

End CheckProofs.

(** ** More on the circuit breaker *)

Module BreakerMoreProofs.
Import GoInt GoTime Payment PaymentService GoIntFacts BreakerProofs.

Lemma sameButSwitches_CanExecute now cb cb' :
  sameButSwitches cb cb' ->
  fst (CanExecute now cb) = fst (CanExecute now cb') /\
  sameButSwitches (snd (CanExecute now cb)) (snd (CanExecute now cb')).
Proof.
  intros H. pose proof H as (Hst & Hcnt & Hlast & Hthr & Hrec).
  unfold CanExecute, recoveryDuration. rewrite <- Hst, <- Hlast, <- Hrec.
  destruct (state cb); cbn [fst snd]; try done.
  destruct (_ <? _); cbn [fst snd]; [|done].
  split; [done|]. unfold sameButSwitches; cbn. by repeat split.
Qed.

Lemma sameButSwitches_call cb cb' c :
  sameButSwitches cb cb' -> sameButSwitches (call cb c) (call cb' c).
Proof.
  intros H. destruct c as [now| |now]; cbn [call].
  - apply sameButSwitches_CanExecute, H.
  - destruct H as (Hst & Hcnt & Hlast & Hthr & Hrec).
    unfold sameButSwitches, RecordSuccess; cbn. by repeat split.
  - destruct H as (Hst & Hcnt & Hlast & Hthr & Hrec).
    unfold sameButSwitches, RecordFailure; cbn.
    rewrite Hst, Hcnt, Hthr. by repeat split.
Qed.

(** X16. The breaker reads two entries of its configuration only. Two
    breakers that agree on everything but [Enabled] and [HalfOpenRequests]
    give the same answers to every sequence of calls and still agree after
    it: switching the breaker off does not switch it off, and the number of
    half-open requests is not a limit. *)
Theorem breaker_ignores_switches (cs : list Call) :
  forall cb cb',
  sameButSwitches cb cb' ->
  fst (trace cs cb) = fst (trace cs cb') /\
  sameButSwitches (snd (trace cs cb)) (snd (trace cs cb')).
Proof.
  induction cs as [|c cs IH]; intros cb cb' H; [done|].
  destruct c as [now| |now]; cbn [trace].
  - destruct (sameButSwitches_CanExecute now cb cb' H) as [Hb Hs].
    destruct (CanExecute now cb) as [b cb1], (CanExecute now cb') as [b' cb1'].
    cbn [fst snd] in Hb, Hs. subst b'.
    destruct (IH _ _ Hs) as [H1 H2].
    destruct (trace cs cb1) as [bs cb2], (trace cs cb1') as [bs' cb2'].
    cbn [fst snd] in *. by subst bs'.
  - apply IH. apply (sameButSwitches_call cb cb' CallRecordSuccess H).
  - apply IH. apply (sameButSwitches_call cb cb' (CallRecordFailure now) H).
Qed.

Lemma breaker_ignores_switches_witness :
  fst (trace (trialFails ++ [CallCanExecute (67 * Second)])
         (NewCircuitBreaker defaultConfig)) =
  fst (trace (trialFails ++ [CallCanExecute (67 * Second)])
         (NewCircuitBreaker switchedOff)) /\
  sameButSwitches
    (snd (trace (trialFails ++ [CallCanExecute (67 * Second)])
            (NewCircuitBreaker defaultConfig)))
    (snd (trace (trialFails ++ [CallCanExecute (67 * Second)])
            (NewCircuitBreaker switchedOff))).
Proof.
  apply (breaker_ignores_switches (trialFails ++ [CallCanExecute (67 * Second)])
           (NewCircuitBreaker defaultConfig) (NewCircuitBreaker switchedOff)).
  unfold sameButSwitches. cbn. by repeat split.
Defined.

(** X17. A half-open breaker lets every call through. However many
    [CanExecute] calls are made while it is half-open, all are answered
    [true] and the breaker stays as it is; only a recorded outcome moves
    it on. *)
Theorem half_open_admits_every_call (ts : list Time) cb :
  state cb = HalfOpen ->
  canExecutes ts cb = (replicate (length ts) true, cb).
Proof.
  intros Hst. induction ts as [|t ts IH]; [done|].
  cbn [canExecutes length replicate]. unfold CanExecute. rewrite Hst.
  by rewrite IH.
Qed.

Lemma half_open_admits_every_call_witness :
  canExecutes [70 * Second; 71 * Second; 72 * Second; 73 * Second; 74 * Second]
    (calls trialFails (NewCircuitBreaker defaultConfig)) =
    (replicate 5 true, calls trialFails (NewCircuitBreaker defaultConfig)).
Proof.
  apply (half_open_admits_every_call
           [70 * Second; 71 * Second; 72 * Second; 73 * Second; 74 * Second]
           (calls trialFails (NewCircuitBreaker defaultConfig))).
  reflexivity.
Defined.

(** Failures in a row on a closed breaker that has counted none. *)
Lemma recordFailures_from_closed cb (ts : list Time) :
  state cb = Closed -> failureCount cb = 0 ->
  Z.of_nat (length ts) <= maxInt64 ->
  state (recordFailures ts cb) =
    (if (0 <? Z.of_nat (length ts)) && (FailureThreshold (config cb) <=? Z.of_nat (length ts))
     then Open else Closed) /\
  failureCount (recordFailures ts cb) = Z.of_nat (length ts) /\
  config (recordFailures ts cb) = config cb.
Proof.
  intros Hst Hcnt. induction ts as [|t ts IH] using rev_ind; intros Hlen.
  - cbn. by rewrite Hst, Hcnt.
  - rewrite recordFailures_snoc, length_app in *. cbn [length] in *.
    destruct IH as (IHst & IHcnt & IHcfg); [lia|].
    unfold RecordFailure; cbn [state failureCount config].
    rewrite IHst, IHcnt, IHcfg.
    rewrite wrap64_id by (unfold minInt64, maxInt64 in *; lia).
    replace (Z.of_nat (length ts) + 1) with (Z.of_nat (length ts + 1)) by lia.
    split; [|done].
    zcompare; cbn; try reflexivity; lia.
Qed.

(** X18. A success wipes the count. After a [RecordSuccess], whatever the
    breaker had counted before, failures are counted from zero: the
    breaker opens exactly when as many failures as the threshold have
    followed the success, and is closed until then. *)
Theorem success_forgets_failures cb (ts : list Time) :
  Z.of_nat (length ts) <= maxInt64 ->
  failureCount (recordFailures ts (RecordSuccess cb)) = Z.of_nat (length ts) /\
  (state (recordFailures ts (RecordSuccess cb)) = Open <->
   ts <> [] /\ FailureThreshold (config cb) <= Z.of_nat (length ts)) /\
  (state (recordFailures ts (RecordSuccess cb)) <> Open ->
   state (recordFailures ts (RecordSuccess cb)) = Closed).
Proof.
  intros Hlen.
  destruct (recordFailures_from_closed (RecordSuccess cb) ts eq_refl eq_refl Hlen)
    as (Hst & Hcnt & _).
  cbn [config RecordSuccess] in Hst.
  assert (Hnil : ts <> [] <-> 0 < Z.of_nat (length ts)).
  { destruct ts; cbn [length]; split; intros; try congruence; lia. }
  rewrite Hst, Hcnt. split; [done|]. split; [|].
  - rewrite Hnil. split.
    + zcompare; cbn; intros; try lia; discriminate.
    + intros [? ?]. zcompare; cbn; try reflexivity; lia.
  - zcompare; cbn; intros; try reflexivity; congruence.
Qed.

Lemma success_forgets_failures_witness :
  failureCount (recordFailures [70 * Second; 71 * Second; 72 * Second; 73 * Second]
                  (RecordSuccess tripped)) = 4 /\
  state (recordFailures [70 * Second; 71 * Second; 72 * Second; 73 * Second]
           (RecordSuccess tripped)) = Closed.
Proof.
  pose proof (success_forgets_failures tripped
                [70 * Second; 71 * Second; 72 * Second; 73 * Second]
                ltac:(vm_compute; discriminate)) as (Hcnt & _ & Hclosed).
  split; [exact Hcnt|]. apply Hclosed. vm_compute. discriminate.
Defined.

End BreakerMoreProofs.

(** ** The payment handler and its breaker *)

Module PaymentProofs.
Import GoInt GoTime Payment PaymentService GoIntFacts BreakerProofs BreakerMoreProofs.

Section Requests.

Context {float64 : Type}.
Variable zoneOffset : Z.
Variable req : @PaymentRequest float64.

Lemma ProcessPayment_refused now fin cb :
  state cb = Open ->
  -9223372036 <= RecoveryTimeout (config cb) <= 9223372036 ->
  now <= lastFailureTime cb + RecoveryTimeout (config cb) * Second ->
  ProcessPayment zoneOffset now fin cb (Ok req) =
    (cb, {| status := StatusServiceUnavailable;
            body := ErrorBody "Payment service temporarily unavailable" |},
     "circuit_breaker_open", None).
Proof.
  intros Hst Hr Hnow. unfold ProcessPayment.
  rewrite CanExecute_open by assumption.
  by destruct (Z.ltb_spec (lastFailureTime cb + RecoveryTimeout (config cb) * Second) now);
    [lia|].
Qed.

(** X19. While the breaker is open the gateway is not called. Every
    payment request that arrives up to and including the instant
    [lastFailureTime + RecoveryTimeout] seconds is answered 503, labelled
    "circuit_breaker_open", leaves the breaker as it is and sends no
    [INSERT]. *)
Theorem payments_refused_while_open (ts : list (Time * Time)) cb :
  state cb = Open ->
  -9223372036 <= RecoveryTimeout (config cb) <= 9223372036 ->
  Forall (fun p => fst p <= lastFailureTime cb + RecoveryTimeout (config cb) * Second) ts ->
  processAll zoneOffset ts cb req = (cb, replicate (length ts) StatusServiceUnavailable) /\
  Forall (fun p => ProcessPayment zoneOffset (fst p) (snd p) cb (Ok req) =
                     (cb, {| status := StatusServiceUnavailable;
                             body := ErrorBody "Payment service temporarily unavailable" |},
                      "circuit_breaker_open", None)) ts.
Proof.
  intros Hst Hr. induction 1 as [|[now fin] ts Ht _ [IH1 IH2]]; [done|].
  cbn [fst snd] in Ht. split.
  - cbn [processAll length replicate].
    rewrite (ProcessPayment_refused now fin cb Hst Hr Ht). by rewrite IH1.
  - constructor; [|exact IH2]. apply ProcessPayment_refused; assumption.
Qed.

Lemma processAll_failures (ts : list (Time * Time)) :
  forall cb,
  state cb = Closed -> 0 <= failureCount cb ->
  failureCount cb + Z.of_nat (length ts) <= FailureThreshold (config cb) ->
  FailureThreshold (config cb) <= maxInt64 ->
  Forall (fun p => gatewayDown zoneOffset (snd p)) ts ->
  processAll zoneOffset ts cb req =
    (recordFailures (map snd ts) cb, replicate (length ts) StatusInternalServerError).
Proof.
  induction ts as [|[now fin] ts IH]; intros cb Hst Hcnt Hlen Hthr Hdown; [done|].
  inversion Hdown as [|? ? Hd Hdown']; subst. cbn [snd] in Hd.
  cbn [processAll length replicate map]. unfold ProcessPayment, CanExecute.
  rewrite Hst. cbn [negb]. unfold processPaymentThroughGateway.
  unfold gatewayDown in Hd. rewrite (proj2 (Z.ltb_lt _ _) Hd).
  cbn [length] in Hlen.
  destruct ts as [|p ts'].
  - reflexivity.
  - assert (Hst1 : state (RecordFailure fin cb) = Closed).
    { unfold RecordFailure; cbn [state]. rewrite Hst.
      rewrite wrap64_id by (unfold minInt64, maxInt64 in *; lia).
      cbn [length] in Hlen.
      destruct (Z.leb_spec (FailureThreshold (config cb)) (failureCount cb + 1)); [lia|done]. }
    assert (Hcnt1 : failureCount (RecordFailure fin cb) = failureCount cb + 1).
    { unfold RecordFailure; cbn [failureCount].
      apply wrap64_id. cbn [length] in Hlen. unfold minInt64, maxInt64 in *; lia. }
    rewrite (IH (RecordFailure fin cb)); try done.
    + lia.
    + rewrite Hcnt1. cbn [config RecordFailure]. cbn [length] in *. lia.
Qed.

(** X20. Failing payments trip the breaker. From a new breaker, when as
    many requests in a row as the threshold meet a failing gateway, each
    is answered 500, the last one opens the breaker and stamps it with the
    instant of its failure, and every request that arrives within the
    recovery time after that instant is answered 503. *)
Theorem gateway_failures_trip_breaker cfg (ts : list (Time * Time)) :
  ts <> [] ->
  Z.of_nat (length ts) = FailureThreshold cfg ->
  Z.of_nat (length ts) <= maxInt64 ->
  -9223372036 <= RecoveryTimeout cfg <= 9223372036 ->
  Forall (fun p => gatewayDown zoneOffset (snd p)) ts ->
  snd (processAll zoneOffset ts (NewCircuitBreaker cfg) req) =
    replicate (length ts) StatusInternalServerError /\
  state (fst (processAll zoneOffset ts (NewCircuitBreaker cfg) req)) = Open /\
  lastFailureTime (fst (processAll zoneOffset ts (NewCircuitBreaker cfg) req)) =
    List.last (map snd ts) zeroTime /\
  forall now fin,
    now <= List.last (map snd ts) zeroTime + RecoveryTimeout cfg * Second ->
    status (snd (fst (fst (ProcessPayment zoneOffset now fin
                             (fst (processAll zoneOffset ts (NewCircuitBreaker cfg) req))
                             (Ok req))))) = StatusServiceUnavailable.
Proof.
  intros Hne Hlen Hmax Hr Hdown.
  rewrite (processAll_failures ts (NewCircuitBreaker cfg)); try done;
    cbn [NewCircuitBreaker state failureCount config]; try lia.
  cbn [fst snd].
  rewrite recordFailures_shape by (rewrite length_map; lia).
  rewrite length_map. cbn [state lastFailureTime].
  assert (Hpos : 0 < Z.of_nat (length ts)) by (destruct ts; [done|cbn [length]; lia]).
  assert (Hopen : (if (0 <? Z.of_nat (length ts)) &&
                      (FailureThreshold cfg <=? Z.of_nat (length ts))
                   then Open else Closed) = Open).
  { zcompare; cbn; try reflexivity; lia. }
  rewrite Hopen. split; [done|]. split; [done|]. split; [done|].
  intros now fin Hnow.
  by rewrite ProcessPayment_refused.
Qed.

(** X21. A transaction is sent to the store exactly when the answer is
    200. A 200 answer closes the breaker and resets its count, carries a
    "completed" response with the amount and the currency of the request,
    and the [INSERT] sent is the one built from that request and response;
    every other answer sends nothing. *)
Theorem payment_stored_only_on_success now fin cb
    (bound : Result string (@PaymentRequest float64)) :
  match ProcessPayment zoneOffset now fin cb bound with
  | (cb', r, label, tx) =>
      (status r = StatusOK <-> tx <> None) /\
      (status r = StatusOK ->
       state cb' = Closed /\ failureCount cb' = 0 /\ label = "success" /\
       exists rq resp,
         bound = Ok rq /\ body r = PaymentBody resp /\
         tx = Some (storeTransaction rq resp) /\
         Status resp = "completed" /\
         ResponseAmount resp = Amount rq /\ ResponseCurrency resp = Currency rq)
  end.
Proof.
  unfold ProcessPayment. destruct bound as [rq|msg]; [|by split; [split|]].
  destruct (CanExecute now cb) as [ok cb1]. destruct ok; cbn [negb]; [|by split; [split|]].
  unfold processPaymentThroughGateway.
  destruct (_ <? _); [by split; [split|]|].
  split; [by split|]. intros _. cbn [RecordSuccess state failureCount].
  split; [done|]. split; [done|]. split; [done|].
  by eexists rq, _.
Qed.

(** X22. The plan and the description of a payment request are not used.
    Two requests that differ in them only get the same answer, leave the
    same breaker and send the same [INSERT]: which plan was paid for is
    recorded nowhere. *)
Theorem payment_ignores_plan now fin cb (rq : @PaymentRequest float64) planID description :
  ProcessPayment zoneOffset now fin cb
    (Ok {| UserID := UserID rq; PlanID := planID; Amount := Amount rq;
           Currency := Currency rq; PaymentMethod := PaymentMethod rq;
           Description := description |}) =
  ProcessPayment zoneOffset now fin cb (Ok rq).
Proof.
  unfold ProcessPayment. destruct (CanExecute now cb) as [ok cb1].
  destruct ok; cbn [negb]; [|done].
  unfold processPaymentThroughGateway. by destruct (_ <? _).
Qed.

(** X23. The trial request decides. On an open breaker that has counted
    its threshold, the first request after the recovery time reaches the
    gateway: when the gateway fails it is answered 500 and the breaker is
    open again, stamped with the instant of that failure; when the
    gateway answers it is answered 200 and the breaker is closed with a
    count of zero. *)
Theorem trial_payment_decides now fin cb :
  state cb = Open ->
  -9223372036 <= RecoveryTimeout (config cb) <= 9223372036 ->
  FailureThreshold (config cb) <= failureCount cb < maxInt64 ->
  0 <= failureCount cb ->
  lastFailureTime cb + RecoveryTimeout (config cb) * Second < now ->
  (gatewayDown zoneOffset fin ->
   ProcessPayment zoneOffset now fin cb (Ok req) =
     ({| state := Open; failureCount := failureCount cb + 1;
         lastFailureTime := fin; config := config cb |},
      {| status := StatusInternalServerError;
         body := ErrorBody "Payment processing failed" |},
      "gateway_error", None)) /\
  (~ gatewayDown zoneOffset fin ->
   state (fst (fst (fst (ProcessPayment zoneOffset now fin cb (Ok req))))) = Closed /\
   failureCount (fst (fst (fst (ProcessPayment zoneOffset now fin cb (Ok req))))) = 0 /\
   status (snd (fst (fst (ProcessPayment zoneOffset now fin cb (Ok req))))) = StatusOK).
Proof.
  intros Hst Hr Hthr Hcnt Hnow. unfold ProcessPayment.
  rewrite CanExecute_open by assumption.
  destruct (Z.ltb_spec (lastFailureTime cb + RecoveryTimeout (config cb) * Second) now); [|lia].
  cbn [negb]. unfold processPaymentThroughGateway, gatewayDown. split.
  - intros Hdown. rewrite (proj2 (Z.ltb_lt _ _) Hdown).
    unfold RecordFailure; cbn [state failureCount lastFailureTime config].
    rewrite wrap64_id by (unfold minInt64, maxInt64 in *; lia).
    by destruct (Z.leb_spec (FailureThreshold (config cb)) (failureCount cb + 1)); [|lia].
  - intros Hup. by destruct (Z.ltb_spec (Z.rem (UnixNano zoneOffset fin) 100) 5).
Qed.

End Requests.

Lemma payments_refused_while_open_witness :
  processAll 0 [(6 * Second, 7 * Second); (65 * Second, 66 * Second)] tripped samplePayment =
    (tripped, replicate 2 StatusServiceUnavailable).
Proof.
  apply (payments_refused_while_open 0 samplePayment
           [(6 * Second, 7 * Second); (65 * Second, 66 * Second)] tripped).
  - reflexivity.
  - vm_compute. split; discriminate.
  - repeat constructor; vm_compute; discriminate.
Defined.

Lemma gateway_failures_trip_breaker_witness :
  state (fst (processAll 0 [(0, 100); (200, 300); (400, 500); (600, 700); (800, 900)]
                (NewCircuitBreaker defaultConfig) samplePayment)) = Open.
Proof.
  apply (gateway_failures_trip_breaker 0 samplePayment defaultConfig
           [(0, 100); (200, 300); (400, 500); (600, 700); (800, 900)]).
  - discriminate.
  - reflexivity.
  - vm_compute. discriminate.
  - vm_compute. split; discriminate.
  - repeat constructor; vm_compute; reflexivity.
Defined.

Lemma trial_payment_decides_witness :
  state (fst (fst (fst (ProcessPayment 0 (66 * Second) (66 * Second + 150) tripped
                          (Ok samplePayment))))) = Closed.
Proof.
  apply (trial_payment_decides 0 samplePayment (66 * Second) (66 * Second + 150) tripped).
  - reflexivity.
  - vm_compute. split; discriminate.
  - vm_compute. split; [discriminate|reflexivity].
  - vm_compute. discriminate.
  - vm_compute. reflexivity.
  - vm_compute. discriminate.
Defined.

End PaymentProofs.

(** ** The webhook endpoint *)

Module DeliveryProofs.
Import GoTime Payment PaymentService WebhookProofs.

Section Deliveries.

Variable json_Marshal : WebhookEvent -> string.
Variable columns_in : string -> string -> string -> option (string * string * string).

(** X24. The signature of a webhook is not checked. Whatever signature a
    delivery carries, the answer, the store and the task started are those
    of the same delivery without a signature; no delivery is answered
    401. *)
Theorem webhook_signature_not_checked now db signature bound :
  HandleWebhook json_Marshal columns_in now db signature bound =
    HandleWebhook json_Marshal columns_in now db "" bound /\
  status (snd (fst (HandleWebhook json_Marshal columns_in now db signature bound)))
    <> StatusUnauthorized.
Proof.
  split; [reflexivity|].
  unfold HandleWebhook. cbn [verifyWebhookSignature negb].
  destruct bound as [event|msg]; [|done].
  by destruct (storeWebhookEvent _ _ _ _ _) as [db1 [e|]].
Qed.

Lemma map_markRow_other now u (rows : list DB.WebhookRow) :
  Forall (fun r => DB.id r <> u) rows ->
  map (markRow now u) rows = rows.
Proof.
  induction 1 as [|r rows Hr _ IH]; [done|]. cbn [map].
  rewrite IH. f_equal. by apply markRow_spec.
Qed.

Lemma existsb_id_false u (rows : list DB.WebhookRow) :
  Forall (fun r => DB.id r <> u) rows ->
  existsb (fun r => String.eqb (DB.id r) u) rows = false.
Proof.
  induction 1 as [|r rows Hr _ IH]; [done|]. cbn [existsb].
  rewrite IH. by destruct (String.eqb_spec (DB.id r) u).
Qed.

(** X25. A delivered event ends up stored and processed. When the store
    is reachable, the event's id denotes a uuid, in any spelling, that no
    stored row has, and the store takes the other values of the event, a
    delivery followed by its detached handler answers 200 and adds exactly
    one row: it has that uuid as id, the type, the source "stripe" and the
    encoded event as the store read them, was created at the delivery, and
    is marked processed at the instant the handler ran, whatever the type
    of the event and whatever its own [processed] entry said. The rows that
    were there and the subscriptions are as before. *)
Theorem webhook_delivery_round_trip now later db signature event i t src p :
  DB.available db = true ->
  Postgres.uuid_in (ID event) = Some i ->
  columns_in (Type_ event) "stripe" (json_Marshal event) = Some (t, src, p) ->
  Forall (fun r => DB.id r <> i) (DB.webhook_events db) ->
  deliver json_Marshal columns_in now later db signature event =
    (DB.withWebhookEvents db
       (DB.webhook_events db ++
        [{| DB.id := i; DB.event_type := t; DB.source := src;
            DB.payload := p; DB.processed := true;
            DB.processed_at := Some later; DB.created_at := now |}]),
     StatusOK).
Proof.
  intros Hav Hid Hin Hnew.
  unfold deliver, HandleWebhook, storeWebhookEvent.
  cbn [verifyWebhookSignature negb]. rewrite Hav, Hid, Hin. cbn [negb].
  rewrite (existsb_id_false _ _ Hnew).
  unfold processWebhookEvent, markWebhookProcessed.
  cbn [DB.withWebhookEvents DB.available DB.webhook_events fst snd status].
  rewrite Hav, Hid. cbn [fst].
  rewrite map_app, (map_markRow_other _ _ _ Hnew). cbn [map].
  unfold markRow. cbn [DB.id]. rewrite String.eqb_refl.
  unfold DB.withWebhookEvents. cbn [DB.available DB.subscription_columns DB.subscriptions].
  reflexivity.
Qed.

(** X26. A delivery the store does not take leaves nothing behind. When
    the store cannot be reached, or the event's id denotes no uuid, or the
    store rejects another value of the event, or it holds a row with the
    event's uuid already, the delivery is answered 500, the store is as
    before and no handler is started: an event delivered again is never
    processed again. *)
Theorem webhook_refused_leaves_nothing now db signature event :
  DB.available db = false \/
  Postgres.uuid_in (ID event) = None \/
  columns_in (Type_ event) "stripe" (json_Marshal event) = None \/
  (exists i r,
     Postgres.uuid_in (ID event) = Some i /\
     In r (DB.webhook_events db) /\ DB.id r = i) ->
  HandleWebhook json_Marshal columns_in now db signature (Ok event) =
    (db, {| status := StatusInternalServerError;
            body := ErrorBody "Failed to process webhook" |}, None).
Proof.
  intros Hcase. unfold HandleWebhook, storeWebhookEvent.
  cbn [verifyWebhookSignature negb].
  destruct (DB.available db); cbn [negb]; [|done].
  destruct Hcase as [Hdown|[Hbad|[Hbad|(i & r & Hid & Hr & Heq)]]]; [done| | |].
  - by rewrite Hbad.
  - rewrite Hbad. by destruct (Postgres.uuid_in (ID event)).
  - rewrite Hid.
    destruct (columns_in _ _ _) as [[[t src] p]|]; [|done].
    assert (Hex : existsb (fun r => String.eqb (DB.id r) i) (DB.webhook_events db) = true).
    { apply existsb_exists. exists r. split; [exact Hr|]. by apply String.eqb_eq. }
    by rewrite Hex.
Qed.

End Deliveries.

Lemma webhook_delivery_round_trip_witness :
  deliver (fun e => Data e) (fun t src p => Some (t, src, p))
    (2 * Second) (3 * Second) sampleStore "t=1,v1=00"
    {| ID := "6FA459EA-EE8A-4CA4-894E-DB77E160355E"; Type_ := "invoice.payment_succeeded";
       Data := "{}"; Created := 2; Processed := true |} =
    (DB.withWebhookEvents sampleStore
       [sampleRow;
        {| DB.id := "6fa459ea-ee8a-4ca4-894e-db77e160355e";
           DB.event_type := "invoice.payment_succeeded";
           DB.source := "stripe"; DB.payload := "{}"; DB.processed := true;
           DB.processed_at := Some (3 * Second); DB.created_at := 2 * Second |}],
     StatusOK).
Proof.
  apply (webhook_delivery_round_trip (fun e => Data e) (fun t src p => Some (t, src, p))
           (2 * Second) (3 * Second) sampleStore "t=1,v1=00"
           {| ID := "6FA459EA-EE8A-4CA4-894E-DB77E160355E";
              Type_ := "invoice.payment_succeeded"; Data := "{}"; Created := 2;
              Processed := true |}
           "6fa459ea-ee8a-4ca4-894e-db77e160355e" "invoice.payment_succeeded" "stripe" "{}").
  - reflexivity.
  - vm_compute. reflexivity.
  - reflexivity.
  - repeat constructor. cbn. discriminate.
Defined.

Lemma webhook_refused_leaves_nothing_witness :
  HandleWebhook (fun e => Data e) (fun t src p => Some (t, src, p))
    (2 * Second) sampleStore "" (Ok sampleEvent) =
    (sampleStore, {| status := StatusInternalServerError;
                     body := ErrorBody "Failed to process webhook" |}, None).
Proof.
  apply (webhook_refused_leaves_nothing (fun e => Data e) (fun t src p => Some (t, src, p))
           (2 * Second) sampleStore "" sampleEvent).
  right. right. right. exists "0b5cbd1e-7f3a-4c2d-9e1f-6a8b7c9d0e1f", sampleRow.
  split; [vm_compute; reflexivity|]. split; [left; reflexivity|reflexivity].
Defined.

End DeliveryProofs.
